(** * DigiBuster technical-support API: access control and ticket lifecycle

    A shallow embedding of [backend/server.py].  The pydantic models are
    records, the enums are inductive types, the request handlers are
    computations in a small state-and-exception monad over a [World] that
    holds the two MongoDB collections together with the clock and the
    random source the server reads.

    The server's collaborators are modelled by their documented contracts:
    - a Motor collection is the list of its documents in insertion order;
      [find_one] returns the first match, [find(...).to_list(n)] the first
      [n] matches, [update_one] rewrites the first match, [insert_one]
      appends;
    - [datetime] is a number of seconds since the epoch, the resolution of
      the [exp] claim of a token;
    - PyJWT's [encode]/[decode] sign and check a payload with an abstract
      keyed MAC; [decode] rejects a token whose [exp] is not in the future;
    - bcrypt's [hashpw]/[checkpw] are abstract functions. *)

From Stdlib Require Import List Ascii String ZArith Bool Lia.
Import ListNotations.

Open Scope string_scope.
Open Scope list_scope.
Open Scope Z_scope.

(** ** Enums *)

Inductive UserRole : Type := CUSTOMER | AGENT.

Inductive TicketStatus : Type := OPEN | IN_PROGRESS | RESOLVED | CLOSED.

Inductive TicketPriority : Type := LOW | MEDIUM | HIGH | CRITICAL.

Inductive TicketCategory : Type :=
  HARDWARE | SOFTWARE | NETWORK | ACCOUNT | OTHER.

Definition UserRole_eqb (a b : UserRole) : bool :=
  match a, b with
  | CUSTOMER, CUSTOMER | AGENT, AGENT => true
  | _, _ => false
  end.

(** The string value of each member (the enums derive from [str]). *)
Definition TicketStatus_value (s : TicketStatus) : string :=
  match s with
  | OPEN => "open"
  | IN_PROGRESS => "in_progress"
  | RESOLVED => "resolved"
  | CLOSED => "closed"
  end.

Definition TicketPriority_value (p : TicketPriority) : string :=
  match p with
  | LOW => "low"
  | MEDIUM => "medium"
  | HIGH => "high"
  | CRITICAL => "critical"
  end.

Definition TicketCategory_value (c : TicketCategory) : string :=
  match c with
  | HARDWARE => "hardware"
  | SOFTWARE => "software"
  | NETWORK => "network"
  | ACCOUNT => "account"
  | OTHER => "other"
  end.

(** Enum lookup by value, as pydantic does when it validates a field. *)
Definition TicketPriority_of_value (s : string) : option TicketPriority :=
  find (fun p => String.eqb (TicketPriority_value p) s)
       [LOW; MEDIUM; HIGH; CRITICAL].

Definition TicketCategory_of_value (s : string) : option TicketCategory :=
  find (fun c => String.eqb (TicketCategory_value c) s)
       [HARDWARE; SOFTWARE; NETWORK; ACCOUNT; OTHER].

(** Python truthiness of a [str]: the empty string is falsy. *)
Definition str_truthy (s : string) : bool :=
  match s with
  | EmptyString => false
  | String _ _ => true
  end.

(** Truthiness of an [Optional[str]]: [None] and the empty string are
    falsy. *)
Definition opt_str_truthy (o : option string) : bool :=
  match o with
  | None => false
  | Some s => str_truthy s
  end.

(** ** Models *)

Definition datetime : Type := Z.

Record UserCreate : Type := mkUserCreate {
  UserCreate_email : string;
  UserCreate_password : string;
  UserCreate_full_name : string;
  UserCreate_role : UserRole
}.

Record UserLogin : Type := mkUserLogin {
  UserLogin_email : string;
  UserLogin_password : string
}.

Record User : Type := mkUser {
  User_id : string;
  User_email : string;
  User_full_name : string;
  User_role : UserRole;
  User_created_at : datetime;
  User_is_active : bool
}.

Record UserResponse : Type := mkUserResponse {
  UserResponse_id : string;
  UserResponse_email : string;
  UserResponse_full_name : string;
  UserResponse_role : UserRole;
  UserResponse_created_at : datetime;
  UserResponse_is_active : bool
}.

Record TicketCreate : Type := mkTicketCreate {
  TicketCreate_title : string;
  TicketCreate_description : string;
  TicketCreate_category : TicketCategory;
  TicketCreate_priority : TicketPriority
}.

Record Ticket : Type := mkTicket {
  Ticket_id : string;
  Ticket_title : string;
  Ticket_description : string;
  Ticket_category : TicketCategory;
  Ticket_priority : TicketPriority;
  Ticket_status : TicketStatus;
  Ticket_customer_id : string;
  Ticket_customer_name : string;
  Ticket_agent_id : option string;
  Ticket_agent_name : option string;
  Ticket_created_at : datetime;
  Ticket_updated_at : datetime
}.

Record TicketUpdate : Type := mkTicketUpdate {
  TicketUpdate_status : option TicketStatus;
  TicketUpdate_agent_id : option string;
  TicketUpdate_agent_name : option string
}.

(** A document of [db.users]: [user.dict()] plus the ["password"] key that
    [register] adds before the insert. *)
Record UserDoc : Type := mkUserDoc {
  doc_user : User;
  doc_password : string
}.

(** [UserResponse] built from the keys of [user.dict()]. *)
Definition UserResponse_of (u : User) : UserResponse :=
  {| UserResponse_id := User_id u;
     UserResponse_email := User_email u;
     UserResponse_full_name := User_full_name u;
     UserResponse_role := User_role u;
     UserResponse_created_at := User_created_at u;
     UserResponse_is_active := User_is_active u |}.

(** ** JWT configuration *)

Definition JWT_SECRET : string := "digibuster_secret_key_2025".
Definition JWT_ALGORITHM : string := "HS256".
Definition JWT_EXPIRATION_HOURS : Z := 24.

(** [timedelta(hours=h)] in seconds. *)
Definition timedelta_hours (h : Z) : Z := h * 3600.

(** ** Errors and the handler monad *)

Record HTTPException : Type := mkHTTPException {
  status_code : Z;
  detail : string
}.

Inductive Result (A : Type) : Type :=
| Ok (a : A)
| Raise (e : HTTPException).

Arguments Ok {A} a.
Arguments Raise {A} e.

(** What a handler can read and write: the two collections, the successive
    readings of the clock and the successive draws of the random source
    ([uuid.uuid4()], [bcrypt.gensalt()]). *)
Record World : Type := mkWorld {
  db_users : list UserDoc;
  db_tickets : list Ticket;
  clock : nat -> datetime;
  clock_reads : nat;
  urandom : nat -> string;
  urandom_reads : nat
}.

Definition M (A : Type) : Type := World -> Result A * World.

Definition ret {A : Type} (a : A) : M A := fun w => (Ok a, w).

Definition raise {A : Type} (e : HTTPException) : M A := fun w => (Raise e, w).

Definition bind {A B : Type} (m : M A) (k : A -> M B) : M B :=
  fun w =>
    match m w with
    | (Ok a, w') => k a w'
    | (Raise e, w') => (Raise e, w')
    end.

Notation "x <- m ;; k" := (bind m (fun x => k))
  (at level 61, m at next level, right associativity).
Notation "m ;;; k" := (bind m (fun _ => k))
  (at level 61, right associativity).

(** [datetime.utcnow()] *)
Definition utcnow : M datetime :=
  fun w =>
    (Ok (clock w (clock_reads w)),
     mkWorld (db_users w) (db_tickets w)
             (clock w) (S (clock_reads w)) (urandom w) (urandom_reads w)).

(** One draw of the random source. *)
Definition draw : M string :=
  fun w =>
    (Ok (urandom w (urandom_reads w)),
     mkWorld (db_users w) (db_tickets w)
             (clock w) (clock_reads w) (urandom w) (S (urandom_reads w))).

(** [str(uuid.uuid4())] *)
Definition uuid4 : M string := draw.

(** ** The collections *)

Definition set_users (us : list UserDoc) (w : World) : World :=
  mkWorld us (db_tickets w)
          (clock w) (clock_reads w) (urandom w) (urandom_reads w).

Definition set_tickets (ts : list Ticket) (w : World) : World :=
  mkWorld (db_users w) ts
          (clock w) (clock_reads w) (urandom w) (urandom_reads w).

(** [db.users.find_one({"email": email})] *)
Definition users_find_one_email (email : string) : M (option UserDoc) :=
  fun w =>
    (Ok (find (fun d => String.eqb (User_email (doc_user d)) email)
              (db_users w)), w).

(** [db.users.find_one({"id": user_id})] *)
Definition users_find_one_id (user_id : string) : M (option UserDoc) :=
  fun w =>
    (Ok (find (fun d => String.eqb (User_id (doc_user d)) user_id)
              (db_users w)), w).

(** [db.users.insert_one(doc)] *)
Definition users_insert_one (d : UserDoc) : M unit :=
  fun w => (Ok tt, set_users (db_users w ++ [d]) w).

Definition has_id (ticket_id : string) (t : Ticket) : bool :=
  String.eqb (Ticket_id t) ticket_id.

Definition has_customer_id (customer_id : string) (t : Ticket) : bool :=
  String.eqb (Ticket_customer_id t) customer_id.

(** [db.tickets.find_one({"id": ticket_id})] *)
Definition tickets_find_one (ticket_id : string) : M (option Ticket) :=
  fun w => (Ok (find (has_id ticket_id) (db_tickets w)), w).

(** [db.tickets.find(query).to_list(length)] *)
Definition tickets_find_to_list
    (query : Ticket -> bool) (length : nat) : M (list Ticket) :=
  fun w => (Ok (firstn length (filter query (db_tickets w))), w).

(** [db.tickets.insert_one(ticket.dict())] *)
Definition tickets_insert_one (t : Ticket) : M unit :=
  fun w => (Ok tt, set_tickets (db_tickets w ++ [t]) w).

(** One key of the [update_data] dict of [update_ticket], with its value. *)
Inductive SetField : Type :=
| set_status (s : TicketStatus)
| set_agent_id (a : string)
| set_agent_name (a : string)
| set_updated_at (d : datetime).

Definition apply_set (t : Ticket) (f : SetField) : Ticket :=
  match f with
  | set_status s =>
      mkTicket (Ticket_id t) (Ticket_title t) (Ticket_description t)
               (Ticket_category t) (Ticket_priority t) s
               (Ticket_customer_id t) (Ticket_customer_name t)
               (Ticket_agent_id t) (Ticket_agent_name t)
               (Ticket_created_at t) (Ticket_updated_at t)
  | set_agent_id a =>
      mkTicket (Ticket_id t) (Ticket_title t) (Ticket_description t)
               (Ticket_category t) (Ticket_priority t) (Ticket_status t)
               (Ticket_customer_id t) (Ticket_customer_name t)
               (Some a) (Ticket_agent_name t)
               (Ticket_created_at t) (Ticket_updated_at t)
  | set_agent_name a =>
      mkTicket (Ticket_id t) (Ticket_title t) (Ticket_description t)
               (Ticket_category t) (Ticket_priority t) (Ticket_status t)
               (Ticket_customer_id t) (Ticket_customer_name t)
               (Ticket_agent_id t) (Some a)
               (Ticket_created_at t) (Ticket_updated_at t)
  | set_updated_at d =>
      mkTicket (Ticket_id t) (Ticket_title t) (Ticket_description t)
               (Ticket_category t) (Ticket_priority t) (Ticket_status t)
               (Ticket_customer_id t) (Ticket_customer_name t)
               (Ticket_agent_id t) (Ticket_agent_name t)
               (Ticket_created_at t) d
  end.

(** The [$set] operator: every key of the dict is written. *)
Definition dollar_set (update_data : list SetField) (t : Ticket) : Ticket :=
  fold_left apply_set update_data t.

(** Rewrite the first document that matches, leave the others. *)
Fixpoint update_first
    (query : Ticket -> bool) (f : Ticket -> Ticket) (l : list Ticket)
    : list Ticket :=
  match l with
  | [] => []
  | t :: l' => if query t then f t :: l' else t :: update_first query f l'
  end.

(** [db.tickets.update_one({"id": ticket_id}, {"$set": update_data})] *)
Definition tickets_update_one
    (ticket_id : string) (update_data : list SetField) : M unit :=
  fun w =>
    (Ok tt,
     set_tickets
       (update_first (has_id ticket_id) (dollar_set update_data)
                     (db_tickets w)) w).

(** ** Request bodies

    FastAPI validates a JSON body against the declared model before it calls
    the handler, and answers 422 when the validation fails.  A body of
    [POST /tickets] is modelled by the keys the model [TicketCreate] reads,
    each present with a string or absent. *)

Record TicketCreate_body : Type := mkTicketCreate_body {
  body_title : option string;
  body_description : option string;
  body_category : option string;
  body_priority : option string
}.

(** A field with a default: absent gives the default, present must be the
    value of a member. *)
Definition field_with_default {A : Type}
    (of_value : string -> option A) (default : A) (o : option string)
    : option A :=
  match o with
  | None => Some default
  | Some s => of_value s
  end.

(** Validation against [TicketCreate]: [title: str] and [description: str]
    are required, [category] and [priority] default to [OTHER] and
    [MEDIUM]. *)
Definition TicketCreate_validate (b : TicketCreate_body)
    : option TicketCreate :=
  match body_title b, body_description b,
        field_with_default TicketCategory_of_value OTHER (body_category b),
        field_with_default TicketPriority_of_value MEDIUM (body_priority b)
  with
  | Some title, Some description, Some category, Some priority =>
      Some (mkTicketCreate title description category priority)
  | _, _, _, _ => None
  end.

Definition validation_error : HTTPException :=
  mkHTTPException 422 "Unprocessable Entity".

(** ** Ticket routes

    Every handler below receives [current_user], the result of the
    dependency [get_current_user]. *)

(** [POST /tickets] *)
Definition create_ticket
    (ticket_data : TicketCreate) (current_user : User) : M Ticket :=
  if negb (UserRole_eqb (User_role current_user) CUSTOMER) then
    raise (mkHTTPException 403 "Only customers can create tickets")
  else
    id <- uuid4 ;;
    created_at <- utcnow ;;
    updated_at <- utcnow ;;
    let ticket :=
      mkTicket id
               (TicketCreate_title ticket_data)
               (TicketCreate_description ticket_data)
               (TicketCreate_category ticket_data)
               (TicketCreate_priority ticket_data)
               OPEN
               (User_id current_user)
               (User_full_name current_user)
               None None created_at updated_at in
    tickets_insert_one ticket ;;;
    ret ticket.

(** [POST /tickets] from the JSON body on. *)
Definition create_ticket_request
    (body : TicketCreate_body) (current_user : User) : M Ticket :=
  match TicketCreate_validate body with
  | None => raise validation_error
  | Some ticket_data => create_ticket ticket_data current_user
  end.

(** [GET /tickets] *)
Definition get_tickets (current_user : User) : M (list Ticket) :=
  tickets <-
    (if UserRole_eqb (User_role current_user) CUSTOMER then
       tickets_find_to_list (has_customer_id (User_id current_user)) 1000
     else
       tickets_find_to_list (fun _ => true) 1000) ;;
  ret tickets.

(** [GET /tickets/{ticket_id}] *)
Definition get_ticket (ticket_id : string) (current_user : User) : M Ticket :=
  ticket <- tickets_find_one ticket_id ;;
  match ticket with
  | None => raise (mkHTTPException 404 "Ticket not found")
  | Some ticket_obj =>
      if UserRole_eqb (User_role current_user) CUSTOMER
         && negb (String.eqb (Ticket_customer_id ticket_obj)
                             (User_id current_user))
      then raise (mkHTTPException 403 "Access denied")
      else ret ticket_obj
  end.

(** The dict [update_data] that [update_ticket] builds from the request:
    a key is written when its value is truthy, then ["updated_at"]. *)
Definition build_update_data
    (ticket_update : TicketUpdate) (now : datetime) : list SetField :=
  let update_data := [] in
  let update_data :=
    match TicketUpdate_status ticket_update with
    | Some s =>
        if str_truthy (TicketStatus_value s)
        then update_data ++ [set_status s] else update_data
    | None => update_data
    end in
  let update_data :=
    match TicketUpdate_agent_id ticket_update with
    | Some a =>
        if str_truthy a then update_data ++ [set_agent_id a] else update_data
    | None => update_data
    end in
  let update_data :=
    match TicketUpdate_agent_name ticket_update with
    | Some a =>
        if str_truthy a then update_data ++ [set_agent_name a] else update_data
    | None => update_data
    end in
  update_data ++ [set_updated_at now].

(** [PUT /tickets/{ticket_id}] *)
Definition update_ticket
    (ticket_id : string) (ticket_update : TicketUpdate) (current_user : User)
    : M Ticket :=
  if negb (UserRole_eqb (User_role current_user) AGENT) then
    raise (mkHTTPException 403 "Only agents can update tickets")
  else
    ticket <- tickets_find_one ticket_id ;;
    match ticket with
    | None => raise (mkHTTPException 404 "Ticket not found")
    | Some _ =>
        now <- utcnow ;;
        let update_data := build_update_data ticket_update now in
        tickets_update_one ticket_id update_data ;;;
        updated_ticket <- tickets_find_one ticket_id ;;
        match updated_ticket with
        | Some t => ret t
        | None => raise (mkHTTPException 500 "Internal Server Error")
        end
    end.

(** ** Tokens *)

(** The payload of a token: the keys the server writes and reads. *)
Record Claims : Type := mkClaims {
  claim_sub : option string;
  claim_exp : option datetime
}.

(** A bearer credential: a well-formed token with its algorithm header,
    payload and signature, or any other string. *)
Inductive Token : Type :=
| Compact (alg : string) (payload : Claims) (signature : string)
| Malformed (raw : string).

Record LoginResponse : Type := mkLoginResponse {
  LoginResponse_access_token : Token;
  LoginResponse_token_type : string;
  LoginResponse_user : UserResponse
}.

Section Server.

(** The keyed MAC of [HS256], and bcrypt. *)
Variable hmac_sha256 : string -> Claims -> string.
Variable bcrypt_hashpw : string -> string -> string.
Variable bcrypt_checkpw : string -> string -> bool.

(** [jwt.encode(payload, key, algorithm=alg)] *)
Definition jwt_encode (payload : Claims) (key alg : string) : Token :=
  Compact alg payload (hmac_sha256 key payload).

(** [jwt.decode(token, key, algorithms=algorithms)]: [None] stands for a
    raised [PyJWTError].  The clock is read to check [exp], and a token is
    expired from the instant [exp] on. *)
Definition jwt_decode (token : Token) (key : string)
    (algorithms : list string) : M (option Claims) :=
  match token with
  | Malformed _ => ret None
  | Compact alg payload signature =>
      if negb (existsb (String.eqb alg) algorithms) then ret None
      else if negb (String.eqb signature (hmac_sha256 key payload))
      then ret None
      else
        match claim_exp payload with
        | None => ret (Some payload)
        | Some exp =>
            now <- utcnow ;;
            if exp <=? now then ret None else ret (Some payload)
        end
  end.

(** [bcrypt.hashpw(password, bcrypt.gensalt())] *)
Definition hash_password (password : string) : M string :=
  salt <- draw ;;
  ret (bcrypt_hashpw password salt).

Definition verify_password (password hashed_password : string) : bool :=
  bcrypt_checkpw password hashed_password.

Definition create_access_token (data : Claims) : M Token :=
  let to_encode := data in
  now <- utcnow ;;
  let expire := now + timedelta_hours JWT_EXPIRATION_HOURS in
  let to_encode := mkClaims (claim_sub to_encode) (Some expire) in
  let encoded_jwt := jwt_encode to_encode JWT_SECRET JWT_ALGORITHM in
  ret encoded_jwt.

Definition invalid_authentication : HTTPException :=
  mkHTTPException 401 "Invalid authentication credentials".

Definition get_current_user (credentials : Token) : M User :=
  decoded <- jwt_decode credentials JWT_SECRET [JWT_ALGORITHM] ;;
  match decoded with
  | None => raise invalid_authentication
  | Some payload =>
      match claim_sub payload with
      | None => raise invalid_authentication
      | Some user_id =>
          user <- users_find_one_id user_id ;;
          match user with
          | None => raise (mkHTTPException 401 "User not found")
          | Some d => ret (doc_user d)
          end
      end
  end.

(** ** Authentication routes *)

(** [POST /auth/register] *)
Definition register (user_data : UserCreate) : M UserResponse :=
  existing_user <- users_find_one_email (UserCreate_email user_data) ;;
  match existing_user with
  | Some _ => raise (mkHTTPException 400 "Email already registered")
  | None =>
      hashed_password <- hash_password (UserCreate_password user_data) ;;
      id <- uuid4 ;;
      created_at <- utcnow ;;
      let user :=
        mkUser id (UserCreate_email user_data)
               (UserCreate_full_name user_data)
               (UserCreate_role user_data) created_at true in
      users_insert_one (mkUserDoc user hashed_password) ;;;
      ret (UserResponse_of user)
  end.

Definition invalid_login : HTTPException :=
  mkHTTPException 401 "Invalid email or password".

(** [POST /auth/login] *)
Definition login (user_data : UserLogin) : M LoginResponse :=
  user <- users_find_one_email (UserLogin_email user_data) ;;
  match user with
  | None => raise invalid_login
  | Some d =>
      if negb (verify_password (UserLogin_password user_data)
                               (doc_password d))
      then raise invalid_login
      else
        access_token <-
          create_access_token (mkClaims (Some (User_id (doc_user d))) None) ;;
        let user_obj := doc_user d in
        ret (mkLoginResponse access_token "bearer"
                             (UserResponse_of user_obj))
  end.

(** [GET /auth/me] *)
Definition get_current_user_info (current_user : User) : M UserResponse :=
  ret (UserResponse_of current_user).

End Server.

(** ** Dashboard *)

(** [db.tickets.count_documents(query)] *)
Definition tickets_count_documents (query : Ticket -> bool) : M nat :=
  fun w => (Ok (List.length (filter query (db_tickets w))), w).

(** The key ["status"] of a query: the stored value is the member's
    string. *)
Definition has_status (status : string) (t : Ticket) : bool :=
  String.eqb (TicketStatus_value (Ticket_status t)) status.

(** The dict that [get_dashboard_stats] returns; the key
    ["in_progress_tickets"] is present for an agent only. *)
Record DashboardStats : Type := mkDashboardStats {
  total_tickets : nat;
  open_tickets : nat;
  in_progress_tickets : option nat;
  resolved_tickets : nat;
  role : string
}.

(** [GET /dashboard/stats] *)
Definition get_dashboard_stats (current_user : User) : M DashboardStats :=
  if UserRole_eqb (User_role current_user) CUSTOMER then
    total_tickets <-
      tickets_count_documents (has_customer_id (User_id current_user)) ;;
    open_tickets <-
      tickets_count_documents
        (fun t => has_customer_id (User_id current_user) t
                  && has_status "open" t) ;;
    resolved_tickets <-
      tickets_count_documents
        (fun t => has_customer_id (User_id current_user) t
                  && has_status "resolved" t) ;;
    ret (mkDashboardStats total_tickets open_tickets None
                          resolved_tickets "customer")
  else
    total_tickets <- tickets_count_documents (fun _ => true) ;;
    open_tickets <- tickets_count_documents (has_status "open") ;;
    in_progress_tickets <-
      tickets_count_documents (has_status "in_progress") ;;
    resolved_tickets <- tickets_count_documents (has_status "resolved") ;;
    ret (mkDashboardStats total_tickets open_tickets
                          (Some in_progress_tickets)
                          resolved_tickets "agent").

(** ** Authenticated routes *)

(** A route declared with [Depends(get_current_user)]: the dependency runs
    first, the handler receives its result. *)
Definition authenticated {A : Type}
    (hmac_sha256 : string -> Claims -> string)
    (credentials : Token) (handler : User -> M A) : M A :=
  current_user <- get_current_user hmac_sha256 credentials ;;
  handler current_user.

(** * Vocabulary of the properties *)

(** The document that [find_one({"id": ticket_id})] answers in [w]. *)
Definition stored_ticket (ticket_id : string) (w : World) : option Ticket :=
  find (has_id ticket_id) (db_tickets w).

(** A ticket with this id exists in [w]. *)
Definition ticket_exists (ticket_id : string) (w : World) : Prop :=
  exists t, In t (db_tickets w) /\ Ticket_id t = ticket_id.

(** [t] is the first stored ticket whose id is [ticket_id]: it is stored,
    it has that id, and no ticket stored before it has. *)
Definition first_with_id (ticket_id : string) (w : World) (t : Ticket)
    : Prop :=
  exists before after,
    db_tickets w = before ++ t :: after /\
    Ticket_id t = ticket_id /\
    forall x, In x before -> Ticket_id x <> ticket_id.

(** The tickets in the caller's scope: a customer's own, an agent's all. *)
Definition in_scope (current_user : User) (t : Ticket) : Prop :=
  User_role current_user = CUSTOMER ->
  Ticket_customer_id t = User_id current_user.

(** [counts P l n]: exactly [n] tickets of [l] satisfy [P]. *)
Inductive counts (P : Ticket -> Prop) : list Ticket -> nat -> Prop :=
| counts_nil : counts P [] 0
| counts_yes (t : Ticket) (l : list Ticket) (n : nat) :
    P t -> counts P l n -> counts P (t :: l) (S n)
| counts_no (t : Ticket) (l : list Ticket) (n : nat) :
    ~ P t -> counts P l n -> counts P (t :: l) n.

(** A ticket in the caller's scope whose status is [s]. *)
Definition in_scope_with_status
    (current_user : User) (s : TicketStatus) (t : Ticket) : Prop :=
  in_scope current_user t /\ Ticket_status t = s.

(** The query [get_tickets] sends for this caller. *)
Definition scope_query (current_user : User) : Ticket -> bool :=
  match User_role current_user with
  | CUSTOMER => has_customer_id (User_id current_user)
  | AGENT => fun _ => true
  end.

(** The ticket a customer's [create_ticket] builds in [w]. *)
Definition created_ticket
    (ticket_data : TicketCreate) (current_user : User) (w : World) : Ticket :=
  mkTicket (urandom w (urandom_reads w))
           (TicketCreate_title ticket_data)
           (TicketCreate_description ticket_data)
           (TicketCreate_category ticket_data)
           (TicketCreate_priority ticket_data)
           OPEN (User_id current_user) (User_full_name current_user)
           None None
           (clock w (clock_reads w)) (clock w (S (clock_reads w))).

(** The user a successful [register] builds in [w]: the salt is drawn
    first, the id second. *)
Definition registered_user (user_data : UserCreate) (w : World) : User :=
  mkUser (urandom w (S (urandom_reads w)))
         (UserCreate_email user_data) (UserCreate_full_name user_data)
         (UserCreate_role user_data) (clock w (clock_reads w)) true.

(** The document that [find_one({"email": email})] answers in [w]. *)
Definition stored_user_by_email (email : string) (w : World)
    : option UserDoc :=
  find (fun d => String.eqb (User_email (doc_user d)) email) (db_users w).

(** The document that [find_one({"id": user_id})] answers in [w]. *)
Definition stored_user_by_id (user_id : string) (w : World)
    : option UserDoc :=
  find (fun d => String.eqb (User_id (doc_user d)) user_id) (db_users w).

(** Two worlds that differ at most in the password hashes they store. *)
Definition same_but_hashes (w1 w2 : World) : Prop :=
  map doc_user (db_users w1) = map doc_user (db_users w2) /\
  db_tickets w1 = db_tickets w2 /\
  clock w1 = clock w2 /\ clock_reads w1 = clock_reads w2 /\
  urandom w1 = urandom w2 /\ urandom_reads w1 = urandom_reads w2.

(** The emails and the ids of the stored users, the ids and the owners of
    the stored tickets, in storage order. *)
Definition user_emails (w : World) : list string :=
  map (fun d => User_email (doc_user d)) (db_users w).

Definition user_ids (w : World) : list string :=
  map (fun d => User_id (doc_user d)) (db_users w).

Definition ticket_ids (w : World) : list string :=
  map Ticket_id (db_tickets w).

Definition ticket_owners (w : World) : list string :=
  map Ticket_customer_id (db_tickets w).

(** The fields of a ticket that no route writes after the creation. *)
Definition ticket_core (t : Ticket)
    : string * string * string * TicketCategory * TicketPriority
      * string * string * datetime :=
  (Ticket_id t, Ticket_title t, Ticket_description t, Ticket_category t,
   Ticket_priority t, Ticket_customer_id t, Ticket_customer_name t,
   Ticket_created_at t).

(** The number of stored tickets that satisfy [query]. *)
Definition count_tickets (query : Ticket -> bool) (w : World) : nat :=
  List.length (filter query (db_tickets w)).

(** The number of tickets in the caller's scope whose status is [s]. *)
Definition count_status (current_user : User) (s : TicketStatus) (w : World)
    : nat :=
  count_tickets
    (fun t => scope_query current_user t
              && match Ticket_status t, s with
                 | OPEN, OPEN | IN_PROGRESS, IN_PROGRESS
                 | RESOLVED, RESOLVED | CLOSED, CLOSED => true
                 | _, _ => false
                 end) w.

(** A body of [POST /tickets] that a key of [TicketCreate] can reject: no
    title, no description, or a category or priority that is the value of
    no member. *)
Definition body_invalid (b : TicketCreate_body) : Prop :=
  body_title b = None \/ body_description b = None \/
  (exists s, body_category b = Some s /\
             forall c, TicketCategory_value c <> s) \/
  (exists s, body_priority b = Some s /\
             forall p, TicketPriority_value p <> s).

(** The reading the next [utcnow()] gives in [w]. *)
Definition now_of (w : World) : datetime := clock w (clock_reads w).

(** A credential that [get_current_user] resolves to the stored document
    [d] in [w]: a token for HS256 signed with the server's secret, not
    expired at the next clock reading, whose subject is the id under which
    [d] is found. *)
Definition resolves_to
    (hmac_sha256 : string -> Claims -> string)
    (credentials : Token) (w : World) (d : UserDoc) : Prop :=
  exists payload user_id,
    credentials
    = Compact JWT_ALGORITHM payload (hmac_sha256 JWT_SECRET payload) /\
    (forall exp, claim_exp payload = Some exp -> now_of w < exp) /\
    claim_sub payload = Some user_id /\
    stored_user_by_id user_id w = Some d.

(** * Sample data for the concrete instances *)

Definition alice : User :=
  mkUser "u-alice" "alice@example.com" "Alice" CUSTOMER 100 true.
Definition bob : User :=
  mkUser "u-bob" "bob@example.com" "Bob" CUSTOMER 110 true.
Definition carol : User :=
  mkUser "u-carol" "carol@example.com" "Carol" AGENT 120 true.

Definition ticket_a : Ticket :=
  mkTicket "t-1" "Printer" "It is on fire" HARDWARE HIGH OPEN
           "u-alice" "Alice" None None 200 200.
Definition ticket_b : Ticket :=
  mkTicket "t-2" "VPN" "Cannot connect" NETWORK MEDIUM IN_PROGRESS
           "u-bob" "Bob" (Some "u-carol") (Some "Carol") 210 220.

(** The [n]-th draw of the sample random source: [n+1] letters. *)
Definition sample_draw (n : nat) : string :=
  string_of_list_ascii (repeat "x"%char (S n)).

Definition sample_world : World :=
  mkWorld [mkUserDoc alice "hash-a"; mkUserDoc bob "hash-b";
           mkUserDoc carol "hash-c"]
          [ticket_a; ticket_b]
          (fun n => 1000 + Z.of_nat n) 0 sample_draw 0.

(** A collection of 1001 tickets, all Alice's, with distinct ids. *)
Definition numbered_ticket (n : nat) : Ticket :=
  mkTicket (sample_draw n) "Laptop" "It is slow" OTHER MEDIUM OPEN
           "u-alice" "Alice" None None 300 300.

Definition crowded_world : World :=
  mkWorld [mkUserDoc alice "hash-a"; mkUserDoc carol "hash-c"]
          (map numbered_ticket (seq 0 1001))
          (fun n => 1000 + Z.of_nat n) 0 sample_draw 0.

(** A body with an empty title and an empty description. *)
Definition blank_body : TicketCreate_body :=
  mkTicketCreate_body (Some "") (Some "") None None.

(** Sample libraries for the concrete instances: a MAC that is the key
    followed by the subject, a hash that is a tag followed by the password. *)
Definition sample_hmac (key : string) (payload : Claims) : string :=
  String.append key
    (match claim_sub payload with Some s => s | None => "" end).

Definition sample_hashpw (password salt : string) : string :=
  String.append "hash-" password.

Definition sample_checkpw (password hashed_password : string) : bool :=
  String.eqb hashed_password (String.append "hash-" password).

(** [sample_world] with every password hash replaced. *)
Definition rehashed_world : World :=
  mkWorld [mkUserDoc alice "hash-1"; mkUserDoc bob "hash-2";
           mkUserDoc carol "hash-3"]
          [ticket_a; ticket_b]
          (fun n => 1000 + Z.of_nat n) 0 sample_draw 0.

(** A second hash function: the salt followed by the password. *)
Definition salted_hashpw (password salt : string) : string :=
  String.append salt password.

(** [sample_world] with a clock that always reads [now]. *)
Definition world_at (now : datetime) : World :=
  mkWorld (db_users sample_world) (db_tickets sample_world)
          (fun _ => now) 0 sample_draw 0.

(** * Properties *)

(** ** The ticket collection *)

Lemma has_id_true (ticket_id : string) (t : Ticket) :
  has_id ticket_id t = true <-> Ticket_id t = ticket_id.
Proof. unfold has_id. apply String.eqb_eq. Qed.

Lemma stored_ticket_Some (ticket_id : string) (w : World) (t : Ticket) :
  stored_ticket ticket_id w = Some t ->
  In t (db_tickets w) /\ Ticket_id t = ticket_id.
Proof.
  unfold stored_ticket. intros H. apply find_some in H.
  destruct H as [Hin Hid]. split; [exact Hin | now apply has_id_true].
Qed.

Lemma stored_ticket_exists (ticket_id : string) (w : World) :
  ticket_exists ticket_id w <-> exists t, stored_ticket ticket_id w = Some t.
Proof.
  unfold ticket_exists. split.
  - intros [t [Hin Hid]].
    destruct (stored_ticket ticket_id w) as [t'|] eqn:E; [now exists t'|].
    unfold stored_ticket in E.
    pose proof (find_none _ _ E t Hin) as Hno.
    apply has_id_true in Hid. congruence.
  - intros [t H]. exists t. now apply stored_ticket_Some.
Qed.

Lemma stored_ticket_None (ticket_id : string) (w : World) :
  stored_ticket ticket_id w = None <-> ~ ticket_exists ticket_id w.
Proof.
  rewrite stored_ticket_exists. split.
  - intros H [t Ht]. congruence.
  - intros H. destruct (stored_ticket ticket_id w) as [t|]; [|reflexivity].
    exfalso. apply H. now exists t.
Qed.

Lemma UserRole_eqb_eq (a b : UserRole) : UserRole_eqb a b = true <-> a = b.
Proof. destruct a, b; simpl; split; congruence. Qed.

(** ** Reading one ticket *)

Lemma get_ticket_run (ticket_id : string) (current_user : User) (w : World) :
  get_ticket ticket_id current_user w =
  (match stored_ticket ticket_id w with
   | None => Raise (mkHTTPException 404 "Ticket not found")
   | Some t =>
       if UserRole_eqb (User_role current_user) CUSTOMER
          && negb (String.eqb (Ticket_customer_id t) (User_id current_user))
       then Raise (mkHTTPException 403 "Access denied")
       else Ok t
   end, w).
Proof.
  unfold get_ticket, bind, tickets_find_one, stored_ticket.
  destruct (find (has_id ticket_id) (db_tickets w)) as [t|]; [|reflexivity].
  destruct (UserRole_eqb _ _ && negb _); reflexivity.
Qed.

Lemma find_first_with_id (ticket_id : string) (l : list Ticket) (t : Ticket) :
  find (has_id ticket_id) l = Some t <->
  exists before after,
    l = before ++ t :: after /\
    Ticket_id t = ticket_id /\
    forall x, In x before -> Ticket_id x <> ticket_id.
Proof.
  split.
  - induction l as [|a l IH]; simpl; [discriminate|].
    destruct (has_id ticket_id a) eqn:E.
    + intros H. injection H as <-. exists [], l.
      split; [reflexivity|]. split; [now apply has_id_true|].
      intros x [].
    + intros H. destruct (IH H) as (before & after & -> & Hid & Hb).
      exists (a :: before), after. split; [reflexivity|].
      split; [exact Hid|]. intros x [<-|Hx]; [|now apply Hb].
      intros Ha. apply has_id_true in Ha. congruence.
  - intros (before & after & -> & Hid & Hb).
    induction before as [|a before IH]; simpl.
    + apply has_id_true in Hid. now rewrite Hid.
    + assert (Ha : has_id ticket_id a = false).
      { unfold has_id. apply String.eqb_neq. apply Hb. now left. }
      rewrite Ha. apply IH. intros x Hx. apply Hb. now right.
Qed.

Lemma stored_ticket_first (ticket_id : string) (w : World) (t : Ticket) :
  stored_ticket ticket_id w = Some t <-> first_with_id ticket_id w t.
Proof. apply find_first_with_id. Qed.

(** C1: [get_ticket] changes nothing.  It returns a ticket exactly when
    that ticket is the first one stored under the id and the caller is an
    agent or the customer who owns it; a customer who does not own that
    ticket gets 403 (Forbidden); and the answer is 404 (NotFound), for any
    caller, exactly when no stored ticket has the id. *)
Theorem get_ticket_authorization
    (ticket_id : string) (current_user : User) (w : World) :
  let r := get_ticket ticket_id current_user w in
  snd r = w /\
  (forall t,
      fst r = Ok t <->
      first_with_id ticket_id w t /\
      (User_role current_user = AGENT \/
       (User_role current_user = CUSTOMER /\
        User_id current_user = Ticket_customer_id t))) /\
  (forall t,
      first_with_id ticket_id w t ->
      User_role current_user = CUSTOMER ->
      User_id current_user <> Ticket_customer_id t ->
      fst r = Raise (mkHTTPException 403 "Access denied")) /\
  (fst r = Raise (mkHTTPException 404 "Ticket not found") <->
   ~ ticket_exists ticket_id w).
Proof.
  cbv zeta. rewrite get_ticket_run. cbn [fst snd].
  split; [reflexivity|]. split; [|split].
  - intros t. rewrite <- stored_ticket_first.
    destruct (stored_ticket ticket_id w) as [t0|].
    + destruct (User_role current_user); cbn [UserRole_eqb andb].
      * destruct (String.eqb_spec (Ticket_customer_id t0)
                                  (User_id current_user)) as [He|Hn];
          cbn [negb]; split.
        -- intros H. injection H as <-. split; [reflexivity|].
           right. split; [reflexivity | now symmetry].
        -- intros [H _]. congruence.
        -- discriminate.
        -- intros [H [Hag|[_ Hid]]]; [discriminate|].
           injection H as <-. now symmetry in Hid.
      * split.
        -- intros H. injection H as <-. split; [reflexivity | now left].
        -- intros [H _]. congruence.
    + split; [discriminate | intros [H _]; discriminate].
  - intros t Ht Hr Hne. apply stored_ticket_first in Ht.
    rewrite Ht, Hr. cbn [UserRole_eqb andb].
    destruct (String.eqb_spec (Ticket_customer_id t) (User_id current_user))
      as [He|Hn]; [now symmetry in He | reflexivity].
  - rewrite <- stored_ticket_None.
    destruct (stored_ticket ticket_id w) as [t0|].
    + split; [|discriminate].
      destruct (UserRole_eqb _ _ && negb _); discriminate.
    + now split.
Qed.

Lemma get_ticket_authorization_witness :
  fst (get_ticket "t-2" bob sample_world) = Ok ticket_b /\
  fst (get_ticket "t-2" carol sample_world) = Ok ticket_b /\
  fst (get_ticket "t-2" alice sample_world)
  = Raise (mkHTTPException 403 "Access denied") /\
  fst (get_ticket "t-9" alice sample_world)
  = Raise (mkHTTPException 404 "Ticket not found").
Proof.
  assert (Hfirst : first_with_id "t-2" sample_world ticket_b).
  { exists [ticket_a], []. split; [reflexivity|]. split; [reflexivity|].
    intros x [<-|[]]. discriminate. }
  split; [|split; [|split]].
  - apply (get_ticket_authorization "t-2" bob sample_world).
    split; [exact Hfirst|]. right. now split.
  - apply (get_ticket_authorization "t-2" carol sample_world).
    split; [exact Hfirst|]. now left.
  - apply (get_ticket_authorization "t-2" alice sample_world) with ticket_b;
      [exact Hfirst | reflexivity | discriminate].
  - apply (get_ticket_authorization "t-9" alice sample_world).
    intros (t & [<-|[<-|[]]] & Hid); discriminate.
Defined.

(** The owner and an agent read [ticket_a]; another customer is refused. *)
Example get_ticket_sample :
  fst (get_ticket "t-1" alice sample_world) = Ok ticket_a /\
  fst (get_ticket "t-1" carol sample_world) = Ok ticket_a /\
  fst (get_ticket "t-1" bob sample_world)
  = Raise (mkHTTPException 403 "Access denied") /\
  fst (get_ticket "t-9" carol sample_world)
  = Raise (mkHTTPException 404 "Ticket not found").
Proof. repeat split; reflexivity. Qed.

(** ** Updating a ticket: who may *)

Lemma update_ticket_not_agent
    (ticket_id : string) (ticket_update : TicketUpdate)
    (current_user : User) (w : World) :
  User_role current_user <> AGENT ->
  update_ticket ticket_id ticket_update current_user w
  = (Raise (mkHTTPException 403 "Only agents can update tickets"), w).
Proof.
  intros H. unfold update_ticket.
  destruct (User_role current_user); [reflexivity | congruence].
Qed.

(** C3: a customer's update fails with 403 (Forbidden) whatever the ticket,
    their own included, and leaves the world, hence the stored ticket, as
    it was; an update that succeeds was made by an agent. *)
Theorem update_ticket_customer_forbidden
    (ticket_id : string) (ticket_update : TicketUpdate)
    (current_user : User) (w : World) :
  (User_role current_user = CUSTOMER ->
   update_ticket ticket_id ticket_update current_user w
   = (Raise (mkHTTPException 403 "Only agents can update tickets"), w) /\
   stored_ticket ticket_id
     (snd (update_ticket ticket_id ticket_update current_user w))
   = stored_ticket ticket_id w) /\
  (forall t w',
      update_ticket ticket_id ticket_update current_user w = (Ok t, w') ->
      User_role current_user = AGENT).
Proof.
  split.
  - intros Hr.
    rewrite update_ticket_not_agent by congruence. now split.
  - intros t w' H. destruct (User_role current_user) eqn:Hr; [|reflexivity].
    rewrite update_ticket_not_agent in H by congruence. discriminate.
Qed.

(** Alice cannot close her own ticket. *)
Example update_ticket_own_ticket_refused :
  Ticket_customer_id ticket_a = User_id alice /\
  update_ticket "t-1" (mkTicketUpdate (Some CLOSED) None None)
                alice sample_world
  = (Raise (mkHTTPException 403 "Only agents can update tickets"),
     sample_world).
Proof. split; reflexivity. Qed.

(** C10: [update_ticket] checks the role before it looks the ticket up, so a
    customer who names an id that does not exist gets 403 (Forbidden), not
    404; [get_ticket] looks the ticket up first and answers 404 (NotFound)
    for such an id to every caller. *)
Theorem update_checks_role_before_existence
    (ticket_id : string) (ticket_update : TicketUpdate)
    (current_user : User) (w : World)
    (Hrole : User_role current_user = CUSTOMER)
    (Hmissing : ~ ticket_exists ticket_id w) :
  update_ticket ticket_id ticket_update current_user w
  = (Raise (mkHTTPException 403 "Only agents can update tickets"), w) /\
  (forall any_user,
      get_ticket ticket_id any_user w
      = (Raise (mkHTTPException 404 "Ticket not found"), w)).
Proof.
  split.
  - apply update_ticket_not_agent. congruence.
  - intros any_user. rewrite get_ticket_run.
    apply stored_ticket_None in Hmissing. now rewrite Hmissing.
Qed.

Lemma update_checks_role_before_existence_witness :
  update_ticket "t-9" (mkTicketUpdate (Some CLOSED) None None)
                alice sample_world
  = (Raise (mkHTTPException 403 "Only agents can update tickets"),
     sample_world) /\
  (forall any_user,
      get_ticket "t-9" any_user sample_world
      = (Raise (mkHTTPException 404 "Ticket not found"), sample_world)).
Proof.
  apply (update_checks_role_before_existence
           "t-9" (mkTicketUpdate (Some CLOSED) None None) alice sample_world).
  - reflexivity.
  - apply stored_ticket_None. reflexivity.
Defined.

(** ** Listing tickets *)

Lemma scope_query_true (current_user : User) (t : Ticket) :
  scope_query current_user t = true <-> in_scope current_user t.
Proof.
  unfold scope_query, in_scope, has_customer_id.
  destruct (User_role current_user).
  - rewrite String.eqb_eq. intuition.
  - intuition congruence.
Qed.

Lemma get_tickets_run (current_user : User) (w : World) :
  get_tickets current_user w
  = (Ok (firstn 1000 (filter (scope_query current_user) (db_tickets w))), w).
Proof.
  unfold get_tickets, scope_query, bind, ret.
  destruct (User_role current_user); reflexivity.
Qed.

Lemma In_firstn {A : Type} (n : nat) (l : list A) (x : A) :
  In x (firstn n l) -> In x l.
Proof.
  revert l. induction n as [|n IH]; intros [|a l]; simpl; try tauto.
  intros [H|H]; [now left | right; now apply IH].
Qed.

(** C2, as the code has it: the list is cut after 1000 documents.  The
    answer is, in storage order, the first 1000 tickets in the caller's
    scope, and the world is unchanged; every ticket of the answer is stored
    and in scope, so customer A is never shown a ticket of customer B; when
    at most 1000 tickets are in scope the answer holds exactly those, which
    for an agent is the whole collection. *)
Theorem get_tickets_scoped (current_user : User) (w : World) :
  exists l,
    get_tickets current_user w = (Ok l, w) /\
    l = firstn 1000 (filter (scope_query current_user) (db_tickets w)) /\
    (forall t, In t l -> In t (db_tickets w) /\ in_scope current_user t) /\
    (forall other t,
        User_role current_user = CUSTOMER ->
        User_id other <> User_id current_user ->
        Ticket_customer_id t = User_id other -> ~ In t l) /\
    ((List.length (filter (scope_query current_user) (db_tickets w))
      <= 1000)%nat ->
     (forall t, In t l <-> In t (db_tickets w) /\ in_scope current_user t) /\
     (User_role current_user = AGENT -> l = db_tickets w)).
Proof.
  eexists. split; [apply get_tickets_run|]. split; [reflexivity|].
  set (own := filter (scope_query current_user) (db_tickets w)).
  assert (Hown : forall t, In t own <->
                           In t (db_tickets w) /\ in_scope current_user t).
  { intros t. unfold own. rewrite filter_In, scope_query_true. reflexivity. }
  split; [|split].
  - intros t Ht. apply Hown. now apply In_firstn in Ht.
  - intros other t Hr Hne Ht Hin.
    apply In_firstn, Hown in Hin. destruct Hin as [_ Hs].
    apply Hne. rewrite <- Ht. now apply Hs.
  - intros Hlen. rewrite firstn_all2 by exact Hlen. split; [exact Hown|].
    intros Hr. unfold own, scope_query. rewrite Hr.
    clear. induction (db_tickets w) as [|a l IH]; simpl; [reflexivity|].
    now rewrite IH.
Qed.

Lemma In_has_id (t : Ticket) (l : list Ticket) :
  In t l -> existsb (has_id (Ticket_id t)) l = true.
Proof.
  intros H. apply existsb_exists. exists t. split; [exact H|].
  now apply has_id_true.
Qed.

(** C2 as stated fails once more than 1000 tickets are in scope: the last of
    the 1001 stored tickets is shown neither to the agent, who should see
    all of them, nor to Alice, who owns it. *)
Lemma get_tickets_drops_ticket_1001 :
  User_role carol = AGENT /\
  User_role alice = CUSTOMER /\
  Ticket_customer_id (numbered_ticket 1000) = User_id alice /\
  In (numbered_ticket 1000) (db_tickets crowded_world) /\
  (exists l, get_tickets carol crowded_world = (Ok l, crowded_world) /\
             ~ In (numbered_ticket 1000) l) /\
  (exists l, get_tickets alice crowded_world = (Ok l, crowded_world) /\
             ~ In (numbered_ticket 1000) l).
Proof.
  repeat split.
  - cbn [db_tickets crowded_world]. apply in_map, in_seq. lia.
  - eexists. split; [apply get_tickets_run|].
    intros H. apply In_has_id in H. vm_compute in H. discriminate.
  - eexists. split; [apply get_tickets_run|].
    intros H. apply In_has_id in H. vm_compute in H. discriminate.
Qed.

(** ** Creating a ticket *)

Lemma create_ticket_run
    (ticket_data : TicketCreate) (current_user : User) (w : World) :
  User_role current_user = CUSTOMER ->
  create_ticket ticket_data current_user w
  = (Ok (created_ticket ticket_data current_user w),
     mkWorld (db_users w)
             (db_tickets w ++ [created_ticket ticket_data current_user w])
             (clock w) (S (S (clock_reads w)))
             (urandom w) (S (urandom_reads w))).
Proof.
  intros Hr. unfold create_ticket. rewrite Hr. reflexivity.
Qed.

(** C4: for a customer [create_ticket] succeeds; the ticket it returns and
    appends to the collection is open, owned by the caller (id and full
    name), unassigned, carries the request's four fields, and its id is a
    new draw of the random source ([uuid4()]), whatever the request and the
    caller; a caller who is not a customer gets 403 (Forbidden) and nothing
    changes. *)
Theorem create_ticket_by_customer
    (ticket_data : TicketCreate) (current_user : User) (w : World) :
  (User_role current_user = CUSTOMER ->
   exists ticket w',
     create_ticket ticket_data current_user w = (Ok ticket, w') /\
     Ticket_status ticket = OPEN /\
     Ticket_customer_id ticket = User_id current_user /\
     Ticket_customer_name ticket = User_full_name current_user /\
     Ticket_agent_id ticket = None /\
     Ticket_agent_name ticket = None /\
     Ticket_id ticket = urandom w (urandom_reads w) /\
     urandom_reads w' = S (urandom_reads w) /\
     Ticket_title ticket = TicketCreate_title ticket_data /\
     Ticket_description ticket = TicketCreate_description ticket_data /\
     Ticket_category ticket = TicketCreate_category ticket_data /\
     Ticket_priority ticket = TicketCreate_priority ticket_data /\
     Ticket_created_at ticket = clock w (clock_reads w) /\
     Ticket_updated_at ticket = clock w (S (clock_reads w)) /\
     db_tickets w' = db_tickets w ++ [ticket]) /\
  (User_role current_user <> CUSTOMER ->
   create_ticket ticket_data current_user w
   = (Raise (mkHTTPException 403 "Only customers can create tickets"), w)).
Proof.
  split; intros Hr.
  - do 2 eexists. split; [now apply create_ticket_run|].
    cbn. repeat split; reflexivity.
  - unfold create_ticket.
    destruct (User_role current_user); [congruence | reflexivity].
Qed.

(** Two tickets created in a row get the two successive draws as ids. *)
Example create_ticket_twice :
  let d := mkTicketCreate "Screen" "It flickers" HARDWARE LOW in
  exists t1 w1 t2 w2,
    create_ticket d alice sample_world = (Ok t1, w1) /\
    create_ticket d alice w1 = (Ok t2, w2) /\
    Ticket_id t1 = "x" /\ Ticket_id t2 = "xx" /\
    db_tickets w2 = [ticket_a; ticket_b; t1; t2] /\
    fst (create_ticket d carol sample_world)
    = Raise (mkHTTPException 403 "Only customers can create tickets").
Proof.
  cbv zeta. do 4 eexists.
  split; [cbv; reflexivity|]. split; [cbv; reflexivity|].
  repeat split; reflexivity.
Qed.

(** C9 as stated fails: a customer's request with an empty title and an
    empty description is not rejected, the ticket is created and stored. *)
Lemma create_ticket_blank_title_accepted :
  User_role alice = CUSTOMER /\
  body_title blank_body = Some "" /\
  body_description blank_body = Some "" /\
  exists ticket w',
    create_ticket_request blank_body alice sample_world = (Ok ticket, w') /\
    Ticket_title ticket = "" /\
    Ticket_description ticket = "" /\
    db_tickets w' = db_tickets sample_world ++ [ticket].
Proof.
  do 3 (split; [reflexivity|]). do 2 eexists.
  split; [cbv; reflexivity|]. repeat split; reflexivity.
Qed.

(** C9, as the code has it: [title] and [description] are required to be
    present, not to be non-empty.  A customer's request that lacks either
    is rejected with 422 and creates nothing; a request that carries both,
    empty or not, with a valid category and priority when given, creates
    the ticket with exactly that title and description. *)
Theorem create_ticket_request_requires_presence
    (body : TicketCreate_body) (current_user : User) (w : World)
    (Hrole : User_role current_user = CUSTOMER) :
  ((body_title body = None \/ body_description body = None) ->
   create_ticket_request body current_user w = (Raise validation_error, w)) /\
  (forall title description category priority,
      body_title body = Some title ->
      body_description body = Some description ->
      field_with_default TicketCategory_of_value OTHER (body_category body)
      = Some category ->
      field_with_default TicketPriority_of_value MEDIUM (body_priority body)
      = Some priority ->
      exists ticket w',
        create_ticket_request body current_user w = (Ok ticket, w') /\
        Ticket_title ticket = title /\
        Ticket_description ticket = description /\
        Ticket_category ticket = category /\
        Ticket_priority ticket = priority /\
        db_tickets w' = db_tickets w ++ [ticket]).
Proof.
  unfold create_ticket_request, TicketCreate_validate. split.
  - intros [H|H]; rewrite H; [reflexivity|].
    destruct (body_title body); reflexivity.
  - intros title description category priority Ht Hd Hc Hp.
    rewrite Ht, Hd, Hc, Hp.
    do 2 eexists. split; [now apply create_ticket_run|].
    cbn. repeat split; reflexivity.
Qed.

Lemma create_ticket_request_requires_presence_witness :
  ((body_title blank_body = None \/ body_description blank_body = None) ->
   create_ticket_request blank_body alice sample_world
   = (Raise validation_error, sample_world)) /\
  (forall title description category priority,
      body_title blank_body = Some title ->
      body_description blank_body = Some description ->
      field_with_default TicketCategory_of_value OTHER
                         (body_category blank_body) = Some category ->
      field_with_default TicketPriority_of_value MEDIUM
                         (body_priority blank_body) = Some priority ->
      exists ticket w',
        create_ticket_request blank_body alice sample_world
        = (Ok ticket, w') /\
        Ticket_title ticket = title /\
        Ticket_description ticket = description /\
        Ticket_category ticket = category /\
        Ticket_priority ticket = priority /\
        db_tickets w' = db_tickets sample_world ++ [ticket]).
Proof.
  apply (create_ticket_request_requires_presence
           blank_body alice sample_world).
  reflexivity.
Defined.

(** A body without a title is rejected. *)
Example create_ticket_request_missing_title :
  create_ticket_request
    (mkTicketCreate_body None (Some "It is slow") None None)
    alice sample_world
  = (Raise validation_error, sample_world).
Proof. reflexivity. Qed.

(** ** Updating a ticket: what changes *)

(** What [$set] with the dict of [update_ticket] makes of a document. *)
Lemma dollar_set_build_update_data
    (ticket_update : TicketUpdate) (now : datetime) (t : Ticket) :
  dollar_set (build_update_data ticket_update now) t
  = mkTicket (Ticket_id t) (Ticket_title t) (Ticket_description t)
             (Ticket_category t) (Ticket_priority t)
             (match TicketUpdate_status ticket_update with
              | Some s => s
              | None => Ticket_status t
              end)
             (Ticket_customer_id t) (Ticket_customer_name t)
             (if opt_str_truthy (TicketUpdate_agent_id ticket_update)
              then TicketUpdate_agent_id ticket_update
              else Ticket_agent_id t)
             (if opt_str_truthy (TicketUpdate_agent_name ticket_update)
              then TicketUpdate_agent_name ticket_update
              else Ticket_agent_name t)
             (Ticket_created_at t) now.
Proof.
  destruct ticket_update as [[[]|] [[|c1 a1]|] [[|c2 a2]|]];
    destruct t; reflexivity.
Qed.

Lemma find_update_first_same
    (ticket_id : string) (f : Ticket -> Ticket) (l : list Ticket)
    (t : Ticket) :
  (forall x, Ticket_id (f x) = Ticket_id x) ->
  find (has_id ticket_id) l = Some t ->
  find (has_id ticket_id) (update_first (has_id ticket_id) f l) = Some (f t).
Proof.
  intros Hid. induction l as [|a l IH]; simpl; [discriminate|].
  destruct (has_id ticket_id a) eqn:E.
  - intros H. injection H as <-. simpl.
    unfold has_id in *. rewrite Hid, E. reflexivity.
  - intros H. simpl. rewrite E. now apply IH.
Qed.


Lemma dollar_set_id (update_data : list SetField) (t : Ticket) :
  Ticket_id (dollar_set update_data t) = Ticket_id t.
Proof.
  unfold dollar_set. revert t.
  induction update_data as [|f fs IH]; intros t; simpl; [reflexivity|].
  rewrite IH. destruct f; reflexivity.
Qed.

Lemma update_ticket_run
    (ticket_id : string) (ticket_update : TicketUpdate)
    (current_user : User) (w : World) (t : Ticket) :
  User_role current_user = AGENT ->
  stored_ticket ticket_id w = Some t ->
  let now := clock w (clock_reads w) in
  let t' := dollar_set (build_update_data ticket_update now) t in
  update_ticket ticket_id ticket_update current_user w
  = (Ok t',
     mkWorld (db_users w)
             (update_first (has_id ticket_id)
                (dollar_set (build_update_data ticket_update now))
                (db_tickets w))
             (clock w) (S (clock_reads w)) (urandom w) (urandom_reads w)).
Proof.
  intros Hr Hs. cbv zeta. unfold update_ticket. rewrite Hr.
  cbn [UserRole_eqb negb]. unfold bind at 1. unfold tickets_find_one at 1.
  fold (stored_ticket ticket_id w). rewrite Hs.
  unfold bind, utcnow, tickets_update_one, tickets_find_one, set_tickets.
  cbn [db_tickets db_users clock clock_reads urandom urandom_reads].
  unfold stored_ticket in Hs.
  rewrite (find_update_first_same ticket_id _ _ t); [reflexivity | | exact Hs].
  intros x. apply dollar_set_id.
Qed.



(** An update that supplies nothing still refreshes [updated_at]; an empty
    [agent_id] does not clear the assignee. *)
Example update_ticket_nothing_supplied :
  fst (update_ticket "t-2" (mkTicketUpdate None (Some "") None)
                     carol sample_world)
  = Ok (mkTicket "t-2" "VPN" "Cannot connect" NETWORK MEDIUM IN_PROGRESS
                 "u-bob" "Bob" (Some "u-carol") (Some "Carol") 210 1000).
Proof. reflexivity. Qed.

(** ** Authentication *)

Lemma find_public (p : User -> bool) (l1 l2 : list UserDoc) :
  map doc_user l1 = map doc_user l2 ->
  option_map doc_user (find (fun d => p (doc_user d)) l1)
  = option_map doc_user (find (fun d => p (doc_user d)) l2).
Proof.
  revert l2. induction l1 as [|a l1 IH]; intros [|b l2]; simpl;
    try discriminate; [reflexivity|].
  intros H. injection H as Hab Hl. rewrite Hab.
  destruct (p (doc_user b)); simpl; [now rewrite Hab | now apply IH].
Qed.

Section Authentication.

Variable hmac_sha256 : string -> Claims -> string.
Variable bcrypt_checkpw : string -> string -> bool.

(** C6: a login with an email that no user has and a login with a known
    email and a password that fails the hash comparison end the same way:
    the same exception (status 401, same message), and no change of the
    world in either run. *)
Theorem login_failure_undifferentiated
    (unknown known : UserLogin) (w1 w2 : World) (d : UserDoc)
    (Hunknown : stored_user_by_email (UserLogin_email unknown) w1 = None)
    (Hknown : stored_user_by_email (UserLogin_email known) w2 = Some d)
    (Hwrong : bcrypt_checkpw (UserLogin_password known) (doc_password d)
              = false) :
  fst (login hmac_sha256 bcrypt_checkpw unknown w1)
  = fst (login hmac_sha256 bcrypt_checkpw known w2) /\
  login hmac_sha256 bcrypt_checkpw unknown w1
  = (Raise (mkHTTPException 401 "Invalid email or password"), w1) /\
  login hmac_sha256 bcrypt_checkpw known w2
  = (Raise (mkHTTPException 401 "Invalid email or password"), w2).
Proof.
  unfold stored_user_by_email in *.
  assert (H1 : login hmac_sha256 bcrypt_checkpw unknown w1
               = (Raise invalid_login, w1)).
  { unfold login, bind, users_find_one_email. now rewrite Hunknown. }
  assert (H2 : login hmac_sha256 bcrypt_checkpw known w2
               = (Raise invalid_login, w2)).
  { unfold login, bind, users_find_one_email, verify_password.
    now rewrite Hknown, Hwrong. }
  rewrite H1, H2. repeat split; reflexivity.
Qed.

Lemma login_run_ok (user_data : UserLogin) (w : World) (r : LoginResponse) :
  fst (login hmac_sha256 bcrypt_checkpw user_data w) = Ok r ->
  exists d,
    stored_user_by_email (UserLogin_email user_data) w = Some d /\
    r = mkLoginResponse
          (jwt_encode hmac_sha256
             (mkClaims (Some (User_id (doc_user d)))
                (Some (clock w (clock_reads w)
                       + timedelta_hours JWT_EXPIRATION_HOURS)))
             JWT_SECRET JWT_ALGORITHM)
          "bearer" (UserResponse_of (doc_user d)).
Proof.
  unfold login, bind, users_find_one_email, stored_user_by_email.
  destruct (find _ (db_users w)) as [d|]; [|discriminate].
  destruct (verify_password _ _ _); cbn [negb]; [|discriminate].
  cbn. intros H. injection H as <-. now exists d.
Qed.

Lemma get_current_user_public (credentials : Token) (w1 w2 : World) :
  same_but_hashes w1 w2 ->
  fst (get_current_user hmac_sha256 credentials w1)
  = fst (get_current_user hmac_sha256 credentials w2).
Proof.
  intros (Hu & _ & Hc & Hn & _ & _).
  destruct w1 as [us1 ts1 c1 n1 r1 m1], w2 as [us2 ts2 c2 n2 r2 m2].
  cbn in Hu, Hc, Hn. subst c2 n2.
  assert (Hfind : forall user_id,
             option_map doc_user
               (find (fun d => String.eqb (User_id (doc_user d)) user_id)
                     us1)
             = option_map doc_user
                 (find (fun d => String.eqb (User_id (doc_user d)) user_id)
                       us2)).
  { intros user_id.
    apply (find_public (fun u => String.eqb (User_id u) user_id)).
    exact Hu. }
  unfold get_current_user, jwt_decode.
  destruct credentials as [alg payload signature|raw]; [|reflexivity].
  unfold bind, ret, raise, utcnow, users_find_one_id.
  destruct (negb (existsb _ _)); [reflexivity|].
  destruct (negb (String.eqb _ _)); [reflexivity|].
  destruct (claim_exp payload) as [exp|]; cbn.
  - destruct (exp <=? c1 n1); [reflexivity|].
    destruct (claim_sub payload) as [user_id|]; [|reflexivity].
    specialize (Hfind user_id). cbn [db_users].
    destruct (find _ us1), (find _ us2); cbn in *; congruence.
  - destruct (claim_sub payload) as [user_id|]; [|reflexivity].
    specialize (Hfind user_id). cbn [db_users].
    destruct (find _ us1), (find _ us2); cbn in *; congruence.
Qed.

Lemma register_public
    (hashpw1 hashpw2 : string -> string -> string)
    (user_data : UserCreate) (w1 w2 : World) :
  same_but_hashes w1 w2 ->
  fst (register hashpw1 user_data w1) = fst (register hashpw2 user_data w2).
Proof.
  intros (Hu & _ & Hc & Hn & Hr & Hm).
  destruct w1 as [us1 ts1 c1 n1 r1 m1], w2 as [us2 ts2 c2 n2 r2 m2].
  cbn in Hu, Hc, Hn, Hr, Hm. subst c2 n2 r2 m2.
  pose proof (find_public
                (fun u => String.eqb (User_email u)
                                     (UserCreate_email user_data))
                _ _ Hu) as Hfind.
  unfold register, bind, users_find_one_email. cbn [db_users].
  destruct (find _ us1), (find _ us2); cbn in Hfind; try discriminate;
    reflexivity.
Qed.

Lemma register_run_ok
    (hashpw : string -> string -> string)
    (user_data : UserCreate) (w w' : World) (r : UserResponse) :
  register hashpw user_data w = (Ok r, w') ->
  exists u,
    r = UserResponse_of u /\
    db_users w'
    = db_users w
      ++ [mkUserDoc u (hashpw (UserCreate_password user_data)
                              (urandom w (urandom_reads w)))].
Proof.
  unfold register, bind, users_find_one_email.
  destruct (find _ (db_users w)); [discriminate|].
  cbn. intros H. injection H as <- <-. eexists. split; reflexivity.
Qed.

(** C7: what [register], [login] and [GET /auth/me] answer does not depend
    on any stored password hash.  In two worlds that differ at most in
    the hashes they store, and whatever function hashes the password,
    [register] gives the same result, two successful logins with one
    email give the same response, token included, and the caller a
    credential resolves to has the same public fields; yet a successful
    [register] does store the hash next to the user it answers. *)
Theorem responses_hide_password_hash
    (hashpw1 hashpw2 : string -> string -> string)
    (w1 w2 : World) (Hsame : same_but_hashes w1 w2) :
  (forall user_data,
      fst (register hashpw1 user_data w1)
      = fst (register hashpw2 user_data w2)) /\
  (forall user_data r w',
      register hashpw1 user_data w1 = (Ok r, w') ->
      exists u,
        r = UserResponse_of u /\
        db_users w'
        = db_users w1
          ++ [mkUserDoc u (hashpw1 (UserCreate_password user_data)
                                   (urandom w1 (urandom_reads w1)))]) /\
  (forall l1 l2 r1 r2,
      UserLogin_email l1 = UserLogin_email l2 ->
      fst (login hmac_sha256 bcrypt_checkpw l1 w1) = Ok r1 ->
      fst (login hmac_sha256 bcrypt_checkpw l2 w2) = Ok r2 ->
      r1 = r2) /\
  (forall credentials,
      fst ((current_user <- get_current_user hmac_sha256 credentials ;;
            get_current_user_info current_user) w1)
      = fst ((current_user <- get_current_user hmac_sha256 credentials ;;
              get_current_user_info current_user) w2)).
Proof.
  split; [|split; [|split]].
  - intros user_data. now apply register_public.
  - intros user_data r w'. apply register_run_ok.
  - intros l1 l2 r1 r2 He H1 H2.
    apply login_run_ok in H1. destruct H1 as (d1 & Hd1 & ->).
    apply login_run_ok in H2. destruct H2 as (d2 & Hd2 & ->).
    destruct Hsame as (Hu & _ & Hc & Hn & _ & _).
    pose proof (find_public
                  (fun u => String.eqb (User_email u) (UserLogin_email l1))
                  _ _ Hu) as Hfind.
    unfold stored_user_by_email in Hd1, Hd2. cbv beta in Hfind.
    rewrite <- He in Hd2. rewrite Hd1, Hd2 in Hfind. cbn in Hfind.
    injection Hfind as ->. now rewrite Hc, Hn.
  - intros credentials.
    pose proof (get_current_user_public credentials w1 w2 Hsame) as H.
    unfold bind, get_current_user_info, ret.
    destruct (get_current_user hmac_sha256 credentials w1) as [[u1|e1] wa],
             (get_current_user hmac_sha256 credentials w2) as [[u2|e2] wb];
      cbn in *; congruence.
Qed.

(** C8: the token issued for [user_id] at clock reading [t] carries
    [sub = user_id] and [exp = t + 24 hours].  At any later reading before
    [exp] it decodes to that payload and [get_current_user] returns the
    user with that id; at any reading at or after [exp],
    [get_current_user] fails with 401 (Unauthenticated). *)
Theorem token_valid_for_24_hours (user_id : string) (w : World) :
  let t := clock w (clock_reads w) in
  let expire := t + 24 * 3600 in
  exists token w',
    create_access_token hmac_sha256 (mkClaims (Some user_id) None) w
    = (Ok token, w') /\
    token = jwt_encode hmac_sha256
              (mkClaims (Some user_id) (Some expire))
              JWT_SECRET JWT_ALGORITHM /\
    forall w2,
      let now := clock w2 (clock_reads w2) in
      (now < expire ->
       fst (jwt_decode hmac_sha256 token JWT_SECRET [JWT_ALGORITHM] w2)
       = Ok (Some (mkClaims (Some user_id) (Some expire))) /\
       (forall d,
           stored_user_by_id user_id w2 = Some d ->
           fst (get_current_user hmac_sha256 token w2) = Ok (doc_user d)))
      /\
      (expire <= now ->
       fst (get_current_user hmac_sha256 token w2)
       = Raise (mkHTTPException 401 "Invalid authentication credentials")).
Proof.
  cbv zeta. do 2 eexists. split; [reflexivity|]. split; [reflexivity|].
  intros w2.
  unfold get_current_user, jwt_decode, jwt_encode, bind, utcnow, ret,
    users_find_one_id, stored_user_by_id.
  cbn [existsb JWT_ALGORITHM orb negb claim_exp claim_sub].
  rewrite !String.eqb_refl. cbn [orb negb].
  change (timedelta_hours JWT_EXPIRATION_HOURS) with (24 * 3600).
  split.
  - intros Hlt.
    destruct (Z.leb_spec (clock w (clock_reads w) + 24 * 3600)
                         (clock w2 (clock_reads w2))) as [Hle|_]; [lia|].
    split; [reflexivity|].
    intros d Hd. cbn [db_users claim_sub]. now rewrite Hd.
  - intros Hge.
    destruct (Z.leb_spec (clock w (clock_reads w) + 24 * 3600)
                         (clock w2 (clock_reads w2))) as [_|Hlt]; [|lia].
    reflexivity.
Qed.

End Authentication.

Lemma login_failure_undifferentiated_witness :
  fst (login sample_hmac sample_checkpw
             (mkUserLogin "nobody@example.com" "a") sample_world)
  = fst (login sample_hmac sample_checkpw
               (mkUserLogin "alice@example.com" "wrong") sample_world) /\
  login sample_hmac sample_checkpw
        (mkUserLogin "nobody@example.com" "a") sample_world
  = (Raise (mkHTTPException 401 "Invalid email or password"), sample_world) /\
  login sample_hmac sample_checkpw
        (mkUserLogin "alice@example.com" "wrong") sample_world
  = (Raise (mkHTTPException 401 "Invalid email or password"), sample_world).
Proof.
  apply (login_failure_undifferentiated
           sample_hmac sample_checkpw
           (mkUserLogin "nobody@example.com" "a")
           (mkUserLogin "alice@example.com" "wrong")
           sample_world sample_world (mkUserDoc alice "hash-a"));
    reflexivity.
Defined.

(** With the right password the same request succeeds. *)
Example login_sample_ok :
  fst (login sample_hmac sample_checkpw
             (mkUserLogin "alice@example.com" "a") sample_world)
  = Ok (mkLoginResponse
          (Compact "HS256" (mkClaims (Some "u-alice") (Some 87400))
                   "digibuster_secret_key_2025u-alice")
          "bearer" (UserResponse_of alice)).
Proof. reflexivity. Qed.

Lemma same_but_hashes_sample : same_but_hashes sample_world rehashed_world.
Proof. repeat split; reflexivity. Qed.

Lemma responses_hide_password_hash_witness :
  fst (register sample_hashpw
                (mkUserCreate "dave@example.com" "d" "Dave" CUSTOMER)
                sample_world)
  = fst (register salted_hashpw
                  (mkUserCreate "dave@example.com" "d" "Dave" CUSTOMER)
                  rehashed_world) /\
  fst ((current_user <-
          get_current_user sample_hmac
            (Compact "HS256" (mkClaims (Some "u-bob") None)
                     "digibuster_secret_key_2025u-bob") ;;
        get_current_user_info current_user) sample_world)
  = fst ((current_user <-
            get_current_user sample_hmac
              (Compact "HS256" (mkClaims (Some "u-bob") None)
                       "digibuster_secret_key_2025u-bob") ;;
          get_current_user_info current_user) rehashed_world).
Proof.
  destruct (responses_hide_password_hash
              sample_hmac sample_checkpw sample_hashpw salted_hashpw
              sample_world rehashed_world same_but_hashes_sample)
    as (Hreg & _ & _ & Hme).
  split; [apply Hreg | apply Hme].
Defined.

(** A registration answers the public fields and stores the hash. *)
Example register_sample :
  register sample_hashpw
           (mkUserCreate "dave@example.com" "d" "Dave" AGENT) sample_world
  = (Ok (mkUserResponse "xx" "dave@example.com" "Dave" AGENT 1000 true),
     mkWorld (db_users sample_world
              ++ [mkUserDoc
                    (mkUser "xx" "dave@example.com" "Dave" AGENT 1000 true)
                    "hash-d"])
             [ticket_a; ticket_b]
             (fun n => 1000 + Z.of_nat n) 1 sample_draw 2).
Proof. reflexivity. Qed.

Example token_sample :
  let token :=
    Compact "HS256" (mkClaims (Some "u-alice") (Some 87400))
            "digibuster_secret_key_2025u-alice" in
  fst (create_access_token sample_hmac (mkClaims (Some "u-alice") None)
                           sample_world) = Ok token /\
  fst (get_current_user sample_hmac token sample_world) = Ok alice /\
  fst (get_current_user sample_hmac token (world_at 87399)) = Ok alice /\
  fst (get_current_user sample_hmac token (world_at 87400))
  = Raise (mkHTTPException 401 "Invalid authentication credentials") /\
  fst (get_current_user sample_hmac
         (Compact "HS256" (mkClaims (Some "u-alice") (Some 99999)) "forged")
         sample_world)
  = Raise (mkHTTPException 401 "Invalid authentication credentials").
Proof. cbv zeta. repeat split; reflexivity. Qed.

(** * Further properties of the routes *)

(** ** Lists *)

Lemma Ok_inj {A : Type} (a b : A) : Ok a = Ok b -> a = b.
Proof. intros H. now injection H. Qed.

Lemma find_app_Some {A : Type} (p : A -> bool) (l l' : list A) (x : A) :
  find p l = Some x -> find p (l ++ l') = Some x.
Proof.
  induction l as [|a l IH]; simpl; [discriminate|].
  destruct (p a); [trivial | exact IH].
Qed.

Lemma find_app_None {A : Type} (p : A -> bool) (l l' : list A) :
  find p l = None -> find p (l ++ l') = find p l'.
Proof.
  induction l as [|a l IH]; simpl; [reflexivity|].
  destruct (p a); [discriminate | exact IH].
Qed.

Lemma map_update_first {B : Type}
    (g : Ticket -> B) (query : Ticket -> bool) (f : Ticket -> Ticket)
    (l : list Ticket) :
  (forall x, g (f x) = g x) ->
  map g (update_first query f l) = map g l.
Proof.
  intros Hg. induction l as [|a l IH]; simpl; [reflexivity|].
  destruct (query a); simpl; [now rewrite Hg | now rewrite IH].
Qed.

Lemma find_unique_id (l : list Ticket) (t : Ticket) :
  NoDup (map Ticket_id l) -> In t l ->
  find (has_id (Ticket_id t)) l = Some t.
Proof.
  induction l as [|a l IH]; simpl; [tauto|].
  intros Hnd Hin. inversion Hnd as [|x xs Hnotin Hnd']; subst.
  destruct Hin as [->|Hin].
  - unfold has_id. now rewrite String.eqb_refl.
  - destruct (has_id (Ticket_id t) a) eqn:E; [|now apply IH].
    apply has_id_true in E. exfalso. apply Hnotin. rewrite E.
    now apply in_map.
Qed.

(** ** Updating a ticket: outcomes and invariants *)

Lemma update_ticket_missing
    (ticket_id : string) (ticket_update : TicketUpdate)
    (current_user : User) (w : World) :
  User_role current_user = AGENT ->
  stored_ticket ticket_id w = None ->
  update_ticket ticket_id ticket_update current_user w
  = (Raise (mkHTTPException 404 "Ticket not found"), w).
Proof.
  intros Hr Hs. unfold update_ticket, bind, tickets_find_one. rewrite Hr.
  cbn [UserRole_eqb negb]. fold (stored_ticket ticket_id w).
  now rewrite Hs.
Qed.

(** X1: [update_ticket] ends in one of three ways: 403 for a customer, 404 for
    an agent and an id that does not exist, and otherwise success with the
    ticket that is stored under the id afterwards; the first two change
    nothing, and the read after the write never misses (no 500). *)
Theorem update_ticket_outcomes
    (ticket_id : string) (ticket_update : TicketUpdate)
    (current_user : User) (w : World) :
  let r := update_ticket ticket_id ticket_update current_user w in
  (User_role current_user = CUSTOMER /\
   r = (Raise (mkHTTPException 403 "Only agents can update tickets"), w)) \/
  (User_role current_user = AGENT /\ ~ ticket_exists ticket_id w /\
   r = (Raise (mkHTTPException 404 "Ticket not found"), w)) \/
  (User_role current_user = AGENT /\
   exists t t',
     stored_ticket ticket_id w = Some t /\
     fst r = Ok t' /\
     stored_ticket ticket_id (snd r) = Some t').
Proof.
  cbv zeta. destruct (User_role current_user) eqn:Hr.
  - left. split; [reflexivity|].
    apply update_ticket_not_agent. congruence.
  - right. destruct (stored_ticket ticket_id w) as [t|] eqn:Hs.
    + right. split; [reflexivity|].
      rewrite (update_ticket_run _ ticket_update _ _ t Hr Hs).
      do 2 eexists. split; [reflexivity|]. split; [reflexivity|].
      unfold stored_ticket in *. cbn [snd db_tickets].
      apply find_update_first_same; [|exact Hs].
      intros x. apply dollar_set_id.
    + left. split; [reflexivity|].
      split; [now apply stored_ticket_None|].
      now apply update_ticket_missing.
Qed.

Lemma ticket_core_dollar_set
    (ticket_update : TicketUpdate) (now : datetime) (t : Ticket) :
  ticket_core (dollar_set (build_update_data ticket_update now) t)
  = ticket_core t.
Proof. now rewrite dollar_set_build_update_data. Qed.

Lemma update_ticket_core_map
    (ticket_id : string) (ticket_update : TicketUpdate)
    (current_user : User) (w : World) :
  map ticket_core
      (db_tickets (snd (update_ticket ticket_id ticket_update
                                      current_user w)))
  = map ticket_core (db_tickets w) /\
  db_users (snd (update_ticket ticket_id ticket_update current_user w))
  = db_users w.
Proof.
  destruct (User_role current_user) eqn:Hr.
  { rewrite update_ticket_not_agent by congruence. now split. }
  destruct (stored_ticket ticket_id w) as [t|] eqn:Hs.
  2:{ rewrite update_ticket_missing by assumption. now split. }
  rewrite (update_ticket_run _ ticket_update _ _ t Hr Hs).
  cbn [snd db_tickets db_users]. split; [|reflexivity].
  apply map_update_first. intros x. apply ticket_core_dollar_set.
Qed.

(** X2: Whatever its outcome, [update_ticket] leaves the users alone and keeps,
    for every stored ticket and in the same order, the id, the title, the
    description, the category, the priority, the owner and the creation
    time: no ticket appears, disappears or changes hands. *)
Theorem update_ticket_keeps_core
    (ticket_id : string) (ticket_update : TicketUpdate)
    (current_user : User) (w : World) :
  let w' := snd (update_ticket ticket_id ticket_update current_user w) in
  db_users w' = db_users w /\
  map ticket_core (db_tickets w') = map ticket_core (db_tickets w) /\
  ticket_ids w' = ticket_ids w /\
  ticket_owners w' = ticket_owners w.
Proof.
  cbv zeta.
  destruct (update_ticket_core_map ticket_id ticket_update current_user w)
    as [Hcore Hu].
  split; [exact Hu|]. split; [exact Hcore|].
  unfold ticket_ids, ticket_owners.
  split.
  - apply (f_equal (map (fun c => fst (fst (fst (fst (fst (fst (fst c)))))))))
      in Hcore.
    rewrite !map_map in Hcore. exact Hcore.
  - apply (f_equal (map (fun c => snd (fst (fst c))))) in Hcore.
    rewrite !map_map in Hcore. exact Hcore.
Qed.

(** X3: After a successful update the agent, and the customer who owns the
    ticket, read under that id exactly the ticket the update returned. *)
Theorem update_then_get_ticket
    (ticket_id : string) (ticket_update : TicketUpdate)
    (current_user reader : User) (w w' : World) (t' : Ticket)
    (Hupdate : update_ticket ticket_id ticket_update current_user w
               = (Ok t', w'))
    (Hreader : User_role reader = AGENT \/
               User_id reader = Ticket_customer_id t') :
  get_ticket ticket_id reader w' = (Ok t', w').
Proof.
  assert (Hs' : stored_ticket ticket_id w' = Some t').
  { destruct (User_role current_user) eqn:Hr.
    { rewrite update_ticket_not_agent in Hupdate by congruence.
      discriminate. }
    destruct (stored_ticket ticket_id w) as [t|] eqn:Hs.
    2:{ rewrite update_ticket_missing in Hupdate by assumption.
        discriminate. }
    rewrite (update_ticket_run _ ticket_update _ _ t Hr Hs) in Hupdate.
    injection Hupdate as <- <-.
    unfold stored_ticket in *. cbn [db_tickets].
    apply find_update_first_same; [|exact Hs].
    intros x. apply dollar_set_id. }
  rewrite get_ticket_run, Hs'.
  destruct Hreader as [Hag|Hown].
  - now rewrite Hag.
  - rewrite Hown, String.eqb_refl. cbn [negb]. now rewrite andb_false_r.
Qed.

Lemma update_then_get_ticket_witness :
  exists t' w',
    update_ticket "t-1" (mkTicketUpdate (Some RESOLVED) (Some "u-carol") None)
                  carol sample_world = (Ok t', w') /\
    get_ticket "t-1" alice w' = (Ok t', w').
Proof.
  do 2 eexists. split; [cbv; reflexivity|].
  apply (update_then_get_ticket
           "t-1" (mkTicketUpdate (Some RESOLVED) (Some "u-carol") None)
           carol alice sample_world).
  - reflexivity.
  - right. reflexivity.
Defined.

(** ** Creating, then reading and listing *)

Lemma create_ticket_db
    (ticket_data : TicketCreate) (current_user : User) (w : World) :
  User_role current_user = CUSTOMER ->
  db_tickets (snd (create_ticket ticket_data current_user w))
  = db_tickets w ++ [created_ticket ticket_data current_user w].
Proof. intros Hr. now rewrite create_ticket_run. Qed.

(** X4: A ticket created under an id that was not in use is read back by its
    owner, and by any agent, under the id the creation returned; tickets
    that existed before are still found under their ids, and when the ids
    were pairwise distinct they still are. *)
Theorem create_then_get_ticket
    (ticket_data : TicketCreate) (current_user reader : User) (w : World)
    (Hrole : User_role current_user = CUSTOMER)
    (Hfresh : ~ ticket_exists (urandom w (urandom_reads w)) w)
    (Hreader : User_role reader = AGENT \/ reader = current_user) :
  exists ticket w',
    create_ticket ticket_data current_user w = (Ok ticket, w') /\
    get_ticket (Ticket_id ticket) reader w' = (Ok ticket, w') /\
    (forall other_id t,
        stored_ticket other_id w = Some t ->
        stored_ticket other_id w' = Some t) /\
    (NoDup (ticket_ids w) -> NoDup (ticket_ids w')).
Proof.
  do 2 eexists. split; [now apply create_ticket_run|].
  set (t := created_ticket ticket_data current_user w).
  apply stored_ticket_None in Hfresh. unfold stored_ticket in Hfresh.
  split; [|split].
  - rewrite get_ticket_run. unfold stored_ticket. cbn [db_tickets].
    rewrite find_app_None by exact Hfresh.
    cbn [find]. unfold has_id. rewrite String.eqb_refl.
    subst t. cbn [created_ticket Ticket_customer_id].
    destruct Hreader as [Hag| ->].
    + now rewrite Hag.
    + rewrite String.eqb_refl. cbn [negb]. now rewrite andb_false_r.
  - intros other_id t0 H0. unfold stored_ticket in *. cbn [db_tickets].
    now apply find_app_Some.
  - unfold ticket_ids. cbn [db_tickets]. intros Hnd.
    rewrite map_app. cbn [map t created_ticket Ticket_id].
    apply NoDup_app; [exact Hnd | repeat constructor; simpl; tauto |].
    intros x Hx [<-|[]].
    apply in_map_iff in Hx. destruct Hx as (t0 & Hid & Hin).
    pose proof (find_none _ _ Hfresh t0 Hin) as Hno.
    apply has_id_true in Hid. congruence.
Qed.

Lemma create_then_get_ticket_witness :
  exists ticket w',
    create_ticket (mkTicketCreate "Screen" "It flickers" HARDWARE LOW)
                  alice sample_world = (Ok ticket, w') /\
    get_ticket (Ticket_id ticket) alice w' = (Ok ticket, w').
Proof.
  destruct (create_then_get_ticket
              (mkTicketCreate "Screen" "It flickers" HARDWARE LOW)
              alice alice sample_world)
    as (ticket & w' & Hc & Hg & _).
  - reflexivity.
  - apply stored_ticket_None. reflexivity.
  - now right.
  - now exists ticket, w'.
Defined.

Lemma filter_scope_created
    (ticket_data : TicketCreate) (current_user reader : User) (w : World) :
  filter (scope_query reader) [created_ticket ticket_data current_user w]
  = if scope_query reader (created_ticket ticket_data current_user w)
    then [created_ticket ticket_data current_user w] else [].
Proof. reflexivity. Qed.

(** X5: The listing after a creation: a reader in whose scope the new ticket
    falls (an agent, or the customer who created it) gets the previous
    listing followed by the new ticket as long as fewer than 1000 tickets
    were in scope, and the previous listing, without the new ticket, from
    1000 on; a customer with another id gets the previous listing. *)
Theorem create_then_get_tickets
    (ticket_data : TicketCreate) (current_user reader : User) (w : World)
    (Hrole : User_role current_user = CUSTOMER) :
  exists ticket w' before after,
    create_ticket ticket_data current_user w = (Ok ticket, w') /\
    get_tickets reader w = (Ok before, w) /\
    get_tickets reader w' = (Ok after, w') /\
    (User_role reader = AGENT \/ User_id reader = User_id current_user ->
     (count_tickets (scope_query reader) w < 1000)%nat ->
     after = before ++ [ticket]) /\
    ((1000 <= count_tickets (scope_query reader) w)%nat -> after = before) /\
    (User_role reader = CUSTOMER ->
     User_id reader <> User_id current_user -> after = before).
Proof.
  do 4 eexists.
  split; [now apply create_ticket_run|].
  split; [apply get_tickets_run|]. split; [apply get_tickets_run|].
  cbn [db_tickets]. rewrite filter_app, filter_scope_created.
  set (own := filter (scope_query reader) (db_tickets w)).
  unfold count_tickets. fold own.
  set (t := created_ticket ticket_data current_user w).
  assert (Hin : User_role reader = AGENT \/
                User_id reader = User_id current_user ->
                scope_query reader t = true).
  { intros [Hag|Hid]; unfold scope_query.
    - now rewrite Hag.
    - destruct (User_role reader); [|reflexivity].
      unfold has_customer_id. subst t. cbn [created_ticket Ticket_customer_id].
      rewrite Hid. apply String.eqb_refl. }
  split; [|split].
  - intros Hreader Hlt. rewrite (Hin Hreader), firstn_app.
    rewrite firstn_all2 by lia. f_equal.
    destruct (1000 - List.length own)%nat eqn:E; [lia|].
    cbn [firstn]. now rewrite firstn_nil.
  - intros Hge. rewrite firstn_app.
    replace (1000 - List.length own)%nat with 0%nat by lia.
    rewrite firstn_O. apply app_nil_r.
  - intros Hr Hne.
    assert (Hout : scope_query reader t = false).
    { unfold scope_query, has_customer_id. rewrite Hr.
      subst t. cbn [created_ticket Ticket_customer_id].
      apply String.eqb_neq. congruence. }
    rewrite Hout. now rewrite app_nil_r.
Qed.

Lemma create_then_get_tickets_witness :
  exists ticket w',
    create_ticket (mkTicketCreate "Screen" "It flickers" HARDWARE LOW)
                  alice sample_world = (Ok ticket, w') /\
    get_tickets alice w' = (Ok [ticket_a; ticket], w') /\
    get_tickets bob w' = (Ok [ticket_b], w').
Proof.
  destruct (create_then_get_tickets
              (mkTicketCreate "Screen" "It flickers" HARDWARE LOW)
              alice alice sample_world eq_refl)
    as (ticket & w' & before & after & Hc & Hb & Ha & Hnew & _).
  exists ticket, w'. split; [exact Hc|]. split.
  - rewrite Ha. f_equal. f_equal.
    rewrite Hnew; [|now right | vm_compute; lia].
    rewrite get_tickets_run in Hb. injection Hb as <-. reflexivity.
  - rewrite create_ticket_run in Hc by reflexivity.
    injection Hc as <- <-. reflexivity.
Defined.

(** X6: With pairwise distinct ticket ids, every ticket of a caller's listing
    is the ticket that caller reads under its id. *)
Theorem listed_ticket_readable
    (current_user : User) (w : World) (l : list Ticket) (t : Ticket)
    (Hids : NoDup (ticket_ids w))
    (Hlist : get_tickets current_user w = (Ok l, w))
    (Hin : In t l) :
  get_ticket (Ticket_id t) current_user w = (Ok t, w).
Proof.
  rewrite get_tickets_run in Hlist.
  apply (f_equal fst), Ok_inj in Hlist. cbn [fst] in Hlist. subst l.
  apply In_firstn, filter_In in Hin. destruct Hin as [Hin Hq].
  rewrite get_ticket_run. unfold stored_ticket.
  rewrite (find_unique_id _ t Hids Hin).
  unfold scope_query, has_customer_id in Hq.
  destruct (User_role current_user); [|reflexivity].
  rewrite Hq. reflexivity.
Qed.

Lemma listed_ticket_readable_witness :
  get_ticket (Ticket_id ticket_b) bob sample_world
  = (Ok ticket_b, sample_world).
Proof.
  apply (listed_ticket_readable bob sample_world [ticket_b] ticket_b).
  - repeat constructor; simpl; intuition discriminate.
  - reflexivity.
  - now left.
Defined.

(** ** Dashboard *)

Lemma get_dashboard_stats_run (current_user : User) (w : World) :
  get_dashboard_stats current_user w
  = (Ok (match User_role current_user with
         | CUSTOMER =>
             mkDashboardStats
               (count_tickets (has_customer_id (User_id current_user)) w)
               (count_tickets
                  (fun t => has_customer_id (User_id current_user) t
                            && has_status "open" t) w)
               None
               (count_tickets
                  (fun t => has_customer_id (User_id current_user) t
                            && has_status "resolved" t) w)
               "customer"
         | AGENT =>
             mkDashboardStats
               (count_tickets (fun _ => true) w)
               (count_tickets (has_status "open") w)
               (Some (count_tickets (has_status "in_progress") w))
               (count_tickets (has_status "resolved") w)
               "agent"
         end), w).
Proof.
  unfold get_dashboard_stats. destruct (User_role current_user); reflexivity.
Qed.

Lemma count_tickets_ext (p q : Ticket -> bool) (w : World) :
  (forall t, p t = q t) -> count_tickets p w = count_tickets q w.
Proof.
  intros H. unfold count_tickets. now rewrite (filter_ext p q H).
Qed.

Lemma count_status_partition (current_user : User) (w : World) :
  count_tickets (scope_query current_user) w
  = (count_status current_user OPEN w
     + count_status current_user IN_PROGRESS w
     + count_status current_user RESOLVED w
     + count_status current_user CLOSED w)%nat.
Proof.
  unfold count_status, count_tickets.
  induction (db_tickets w) as [|a l IH]; [reflexivity|].
  cbn [filter]. destruct (scope_query current_user a); cbn [andb].
  - destruct (Ticket_status a); cbn [List.length]; rewrite IH; lia.
  - exact IH.
Qed.

Lemma count_status_query
    (current_user : User) (s : TicketStatus) (w : World) :
  count_status current_user s w
  = count_tickets
      (fun t => scope_query current_user t
                && has_status (TicketStatus_value s) t) w.
Proof.
  apply count_tickets_ext. intros t. unfold has_status.
  now destruct (Ticket_status t), s.
Qed.

Lemma dashboard_counts_query (current_user : User) (w : World) :
  exists stats,
    get_dashboard_stats current_user w = (Ok stats, w) /\
    total_tickets stats = count_tickets (scope_query current_user) w /\
    open_tickets stats = count_status current_user OPEN w /\
    resolved_tickets stats = count_status current_user RESOLVED w /\
    in_progress_tickets stats
    = match User_role current_user with
      | CUSTOMER => None
      | AGENT => Some (count_status current_user IN_PROGRESS w)
      end /\
    role stats
    = match User_role current_user with
      | CUSTOMER => "customer"
      | AGENT => "agent"
      end.
Proof.
  eexists. split; [apply get_dashboard_stats_run|].
  rewrite !count_status_query. unfold scope_query.
  destruct (User_role current_user);
    cbn [total_tickets open_tickets in_progress_tickets resolved_tickets
         role TicketStatus_value andb];
    repeat split; reflexivity.
Qed.

Lemma counts_filter
    (P : Ticket -> Prop) (query : Ticket -> bool) (l : list Ticket) :
  (forall t, query t = true <-> P t) ->
  counts P l (List.length (filter query l)).
Proof.
  intros H. induction l as [|a l IH]; cbn [filter List.length].
  - constructor.
  - destruct (query a) eqn:E; cbn [List.length].
    + apply counts_yes; [now apply H | exact IH].
    + apply counts_no; [|exact IH].
      intros Hp. apply H in Hp. congruence.
Qed.

Lemma counts_functional
    (P : Ticket -> Prop) (l : list Ticket) (n m : nat) :
  counts P l n -> counts P l m -> n = m.
Proof.
  intros Hn. revert m.
  induction Hn as [|t l n Hp Hn IH|t l n Hp Hn IH]; intros m Hm;
    inversion Hm; subst; try contradiction; auto.
Qed.

Lemma counts_in_scope (current_user : User) (w : World) :
  counts (in_scope current_user) (db_tickets w)
         (count_tickets (scope_query current_user) w).
Proof. apply counts_filter. intros t. apply scope_query_true. Qed.

Lemma counts_in_scope_with_status
    (current_user : User) (s : TicketStatus) (w : World) :
  counts (in_scope_with_status current_user s) (db_tickets w)
         (count_status current_user s w).
Proof.
  apply counts_filter. intros t. unfold in_scope_with_status.
  rewrite andb_true_iff, scope_query_true.
  destruct (Ticket_status t), s; intuition congruence.
Qed.

(** X7: The numbers of the dashboard are the numbers of stored tickets in the
    caller's scope (a customer's own tickets, all tickets for an agent):
    [total_tickets] is the number of tickets in scope, [open_tickets] and
    [resolved_tickets] the numbers of those that are open and resolved,
    and [in_progress_tickets], given to an agent only, the number of those
    in progress; the total is the sum over the four statuses, so what the
    shown numbers leave of it is the number of closed tickets (and, for a
    customer, of those in progress).  The world is unchanged. *)
Theorem dashboard_counts_scope (current_user : User) (w : World) :
  exists stats in_progress closed,
    get_dashboard_stats current_user w = (Ok stats, w) /\
    counts (in_scope current_user) (db_tickets w) (total_tickets stats) /\
    counts (in_scope_with_status current_user OPEN) (db_tickets w)
           (open_tickets stats) /\
    counts (in_scope_with_status current_user RESOLVED) (db_tickets w)
           (resolved_tickets stats) /\
    counts (in_scope_with_status current_user IN_PROGRESS) (db_tickets w)
           in_progress /\
    counts (in_scope_with_status current_user CLOSED) (db_tickets w)
           closed /\
    in_progress_tickets stats
    = match User_role current_user with
      | CUSTOMER => None
      | AGENT => Some in_progress
      end /\
    role stats
    = match User_role current_user with
      | CUSTOMER => "customer"
      | AGENT => "agent"
      end /\
    total_tickets stats
    = (open_tickets stats + in_progress + resolved_tickets stats
       + closed)%nat.
Proof.
  destruct (dashboard_counts_query current_user w)
    as (stats & Hrun & Ht & Ho & Hr & Hp & Hrole).
  exists stats, (count_status current_user IN_PROGRESS w),
         (count_status current_user CLOSED w).
  split; [exact Hrun|].
  split; [rewrite Ht; apply counts_in_scope|].
  split; [rewrite Ho; apply counts_in_scope_with_status|].
  split; [rewrite Hr; apply counts_in_scope_with_status|].
  split; [apply counts_in_scope_with_status|].
  split; [apply counts_in_scope_with_status|].
  split; [exact Hp|]. split; [exact Hrole|].
  rewrite Ht, Ho, Hr, (count_status_partition current_user w). lia.
Qed.

Lemma dashboard_counts_scope_witness :
  exists stats,
    get_dashboard_stats bob sample_world = (Ok stats, sample_world) /\
    total_tickets stats = 1%nat /\
    open_tickets stats = 0%nat /\
    resolved_tickets stats = 0%nat /\
    in_progress_tickets stats = None.
Proof.
  destruct (dashboard_counts_scope bob sample_world)
    as (stats & in_progress & closed & Hrun & Ht & Ho & Hr & _ & _ & Hp & _).
  exists stats. split; [exact Hrun|].
  assert (Ha : ~ in_scope bob ticket_a).
  { intros H. specialize (H eq_refl). discriminate. }
  assert (Hb : in_scope bob ticket_b) by (intros _; reflexivity).
  split; [|split; [|split]].
  - apply (counts_functional _ _ _ _ Ht).
    apply counts_no; [exact Ha|]. apply counts_yes; [exact Hb|]. constructor.
  - apply (counts_functional _ _ _ _ Ho).
    apply counts_no; [intros [H _]; now apply Ha|].
    apply counts_no; [intros [_ H]; discriminate|]. constructor.
  - apply (counts_functional _ _ _ _ Hr).
    apply counts_no; [intros [H _]; now apply Ha|].
    apply counts_no; [intros [_ H]; discriminate|]. constructor.
  - exact Hp.
Defined.

(** X8: The listing and the dashboard of one caller agree: the listing has as
    many tickets as the dashboard's total, up to the cut at 1000. *)
Theorem dashboard_matches_listing (current_user : User) (w : World) :
  exists stats l,
    get_dashboard_stats current_user w = (Ok stats, w) /\
    get_tickets current_user w = (Ok l, w) /\
    List.length l = Nat.min 1000 (total_tickets stats).
Proof.
  do 2 eexists. split; [apply get_dashboard_stats_run|].
  split; [apply get_tickets_run|].
  rewrite length_firstn. f_equal.
  unfold scope_query, count_tickets.
  now destruct (User_role current_user).
Qed.

Lemma count_tickets_insert
    (query : Ticket -> bool) (t : Ticket) (w : World)
    (c : nat -> datetime) (n : nat) (r : nat -> string) (m : nat) :
  count_tickets query (mkWorld (db_users w) (db_tickets w ++ [t]) c n r m)
  = (count_tickets query w + if query t then 1 else 0)%nat.
Proof.
  unfold count_tickets. cbn [db_tickets filter].
  rewrite filter_app, length_app. cbn [filter].
  now destruct (query t).
Qed.

(** X9: The dashboard after a creation: for an agent and for the customer who
    created the ticket the total and the number of open tickets grow by
    one and the other numbers stay; for a customer with another id the
    dashboard is what it was. *)
Theorem dashboard_after_create
    (ticket_data : TicketCreate) (current_user viewer : User) (w : World)
    (Hrole : User_role current_user = CUSTOMER) :
  exists ticket w' before after,
    create_ticket ticket_data current_user w = (Ok ticket, w') /\
    get_dashboard_stats viewer w = (Ok before, w) /\
    get_dashboard_stats viewer w' = (Ok after, w') /\
    (User_role viewer = AGENT \/ User_id viewer = User_id current_user ->
     total_tickets after = S (total_tickets before) /\
     open_tickets after = S (open_tickets before) /\
     in_progress_tickets after = in_progress_tickets before /\
     resolved_tickets after = resolved_tickets before /\
     role after = role before) /\
    (User_role viewer = CUSTOMER ->
     User_id viewer <> User_id current_user -> after = before).
Proof.
  do 4 eexists.
  split; [now apply create_ticket_run|].
  split; [apply get_dashboard_stats_run|].
  split; [apply get_dashboard_stats_run|].
  rewrite !count_tickets_insert.
  unfold has_status, has_customer_id.
  cbn [created_ticket Ticket_status Ticket_customer_id TicketStatus_value].
  change (String.eqb "open" "open") with true.
  change (String.eqb "open" "resolved") with false.
  change (String.eqb "open" "in_progress") with false.
  split.
  - intros [Hag|Hid].
    + rewrite Hag.
      cbn [total_tickets open_tickets in_progress_tickets resolved_tickets
           role].
      repeat split; try lia. f_equal. lia.
    + destruct (User_role viewer);
        cbn [total_tickets open_tickets in_progress_tickets resolved_tickets
             role].
      * rewrite <- Hid, String.eqb_refl. cbn [andb].
        repeat split; lia.
      * repeat split; try lia. f_equal. lia.
  - intros Hr Hne. rewrite Hr.
    assert (E : String.eqb (User_id current_user) (User_id viewer) = false).
    { apply String.eqb_neq. congruence. }
    rewrite E. cbn [andb]. now rewrite !Nat.add_0_r.
Qed.

Lemma dashboard_after_create_witness :
  exists ticket w',
    create_ticket (mkTicketCreate "Screen" "It flickers" HARDWARE LOW)
                  alice sample_world = (Ok ticket, w') /\
    get_dashboard_stats carol sample_world
    = (Ok (mkDashboardStats 2 1 (Some 1%nat) 0 "agent"), sample_world) /\
    get_dashboard_stats carol w'
    = (Ok (mkDashboardStats 3 2 (Some 1%nat) 0 "agent"), w').
Proof.
  destruct (dashboard_after_create
              (mkTicketCreate "Screen" "It flickers" HARDWARE LOW)
              alice carol sample_world eq_refl)
    as (ticket & w' & before & after & Hc & Hb & Ha & Hgrow & _).
  exists ticket, w'. split; [exact Hc|].
  assert (Hbefore : before = mkDashboardStats 2 1 (Some 1%nat) 0 "agent").
  { apply Ok_inj. apply (f_equal fst) in Hb. exact (eq_sym Hb). }
  split; [reflexivity|].
  rewrite Ha. f_equal. f_equal.
  destruct (Hgrow (or_introl eq_refl)) as (Ht & Ho & Hp & Hr & Hrole).
  subst before. destruct after. cbn in *. congruence.
Defined.

(** X10: An update changes nobody's total: whatever its outcome, every viewer's
    [total_tickets] is the same before and after [update_ticket]. *)
Theorem dashboard_total_after_update
    (ticket_id : string) (ticket_update : TicketUpdate)
    (current_user viewer : User) (w : World) :
  let w' := snd (update_ticket ticket_id ticket_update current_user w) in
  exists before after,
    get_dashboard_stats viewer w = (Ok before, w) /\
    get_dashboard_stats viewer w' = (Ok after, w') /\
    total_tickets after = total_tickets before /\
    role after = role before.
Proof.
  cbv zeta. do 2 eexists.
  split; [apply get_dashboard_stats_run|].
  split; [apply get_dashboard_stats_run|].
  destruct (update_ticket_core_map ticket_id ticket_update current_user w)
    as [Hcore _].
  assert (Hcount : forall g : string -> bool,
             count_tickets (fun t => g (Ticket_customer_id t))
               (snd (update_ticket ticket_id ticket_update current_user w))
             = count_tickets (fun t => g (Ticket_customer_id t)) w).
  { intros g. unfold count_tickets.
    set (q := fun c : string * string * string * TicketCategory
                      * TicketPriority * string * string * datetime =>
                g (snd (fst (fst c)))).
    assert (Hq : forall l, List.length
                             (filter (fun t => g (Ticket_customer_id t)) l)
                           = List.length (filter q (map ticket_core l))).
    { induction l as [|a l IH]; [reflexivity|].
      cbn [map filter]. unfold q at 1. cbn [ticket_core fst snd].
      destruct (g (Ticket_customer_id a)); cbn [List.length];
        now rewrite IH. }
    now rewrite !Hq, Hcore. }
  destruct (User_role viewer); cbn [total_tickets role].
  - split; [|reflexivity].
    apply (Hcount (fun c => String.eqb c (User_id viewer))).
  - split; [|reflexivity]. apply (Hcount (fun _ => true)).
Qed.

(** ** Enum values *)

Lemma TicketCategory_of_value_Some (s : string) (c : TicketCategory) :
  TicketCategory_of_value s = Some c <-> TicketCategory_value c = s.
Proof.
  split.
  - unfold TicketCategory_of_value. intros H. apply find_some in H.
    now apply String.eqb_eq.
  - intros <-. now destruct c.
Qed.

Lemma TicketPriority_of_value_Some (s : string) (p : TicketPriority) :
  TicketPriority_of_value s = Some p <-> TicketPriority_value p = s.
Proof.
  split.
  - unfold TicketPriority_of_value. intros H. apply find_some in H.
    now apply String.eqb_eq.
  - intros <-. now destruct p.
Qed.

(** X11: A string validates as a category, or a priority, exactly when it is the
    value of that member; in particular every member is read back from its
    own value, and two members never share a value. *)
Theorem enum_of_value_iff :
  (forall s c, TicketCategory_of_value s = Some c
               <-> TicketCategory_value c = s) /\
  (forall s p, TicketPriority_of_value s = Some p
               <-> TicketPriority_value p = s).
Proof.
  split;
    [exact TicketCategory_of_value_Some | exact TicketPriority_of_value_Some].
Qed.

Lemma TicketCreate_validate_None (b : TicketCreate_body) :
  TicketCreate_validate b = None <-> body_invalid b.
Proof.
  unfold TicketCreate_validate, body_invalid, field_with_default.
  split.
  - destruct (body_title b) as [title|]; [|now left].
    destruct (body_description b) as [description|]; [|now right; left].
    destruct (body_category b) as [sc|].
    + destruct (TicketCategory_of_value sc) as [c|] eqn:Ec.
      * destruct (body_priority b) as [sp|]; [|discriminate].
        destruct (TicketPriority_of_value sp) as [p|] eqn:Ep; [discriminate|].
        intros _. right; right; right. exists sp. split; [reflexivity|].
        intros p Hp. apply TicketPriority_of_value_Some in Hp. congruence.
      * intros _. right; right; left. exists sc. split; [reflexivity|].
        intros c Hc. apply TicketCategory_of_value_Some in Hc. congruence.
    + destruct (body_priority b) as [sp|]; [|discriminate].
      destruct (TicketPriority_of_value sp) as [p|] eqn:Ep; [discriminate|].
      intros _. right; right; right. exists sp. split; [reflexivity|].
      intros p Hp. apply TicketPriority_of_value_Some in Hp. congruence.
  - intros [H|[H|[(s & H & Hs)|(s & H & Hs)]]]; rewrite H.
    + reflexivity.
    + now destruct (body_title b).
    + destruct (TicketCategory_of_value s) as [c|] eqn:Ec.
      * apply TicketCategory_of_value_Some in Ec. now destruct (Hs c).
      * now destruct (body_title b), (body_description b).
    + destruct (TicketPriority_of_value s) as [p|] eqn:Ep.
      * apply TicketPriority_of_value_Some in Ep. now destruct (Hs p).
      * destruct (body_title b), (body_description b); try reflexivity.
        now destruct (match body_category b with
                      | Some s0 => TicketCategory_of_value s0
                      | None => Some OTHER
                      end).
Qed.

(** X12: The request [POST /tickets] is rejected with 422 exactly when the body
    lacks the title or the description or names a category or a priority
    that is the value of no member, and then nothing is stored; a ticket
    created from a body without category and priority has the category
    [OTHER] and the priority [MEDIUM]. *)
Theorem create_ticket_request_validation
    (body : TicketCreate_body) (current_user : User) (w : World) :
  let r := create_ticket_request body current_user w in
  (fst r = Raise validation_error <-> body_invalid body) /\
  (body_invalid body -> snd r = w) /\
  (forall ticket,
      fst r = Ok ticket ->
      (body_category body = None -> Ticket_category ticket = OTHER) /\
      (body_priority body = None -> Ticket_priority ticket = MEDIUM)).
Proof.
  cbv zeta. rewrite <- TicketCreate_validate_None.
  unfold create_ticket_request.
  destruct (TicketCreate_validate body) as [d|] eqn:E.
  - split; [|split].
    + split; [|discriminate].
      unfold create_ticket.
      destruct (User_role current_user); cbn; discriminate.
    + discriminate.
    + intros ticket H.
      destruct (User_role current_user) eqn:Hr.
      * rewrite create_ticket_run in H by exact Hr.
        apply Ok_inj in H. subst ticket.
        cbn [created_ticket Ticket_category Ticket_priority].
        unfold TicketCreate_validate, field_with_default in E.
        destruct (body_title body), (body_description body);
          try discriminate.
        split; intros Hn; rewrite Hn in E.
        -- destruct (match body_priority body with
                     | Some s1 => TicketPriority_of_value s1
                     | None => Some MEDIUM
                     end); [|discriminate].
           now injection E as <-.
        -- destruct (match body_category body with
                     | Some s1 => TicketCategory_of_value s1
                     | None => Some OTHER
                     end); [|discriminate].
           now injection E as <-.
      * unfold create_ticket in H. rewrite Hr in H. discriminate.
  - split; [|split]; [now split | reflexivity | discriminate].
Qed.

(** ** Registration, login and the token *)

Lemma find_unique_key {A : Type} (key : A -> string) (l : list A) (x : A) :
  NoDup (map key l) -> In x l ->
  find (fun y => String.eqb (key y) (key x)) l = Some x.
Proof.
  induction l as [|a l IH]; simpl; [tauto|].
  intros Hnd Hin. inversion Hnd as [|k ks Hnotin Hnd']; subst.
  destruct Hin as [->|Hin].
  - now rewrite String.eqb_refl.
  - destruct (String.eqb_spec (key a) (key x)) as [E|_]; [|now apply IH].
    exfalso. apply Hnotin. rewrite E. now apply in_map.
Qed.

Lemma stored_user_by_email_None (email : string) (w : World) :
  stored_user_by_email email w = None -> ~ In email (user_emails w).
Proof.
  unfold stored_user_by_email, user_emails. intros H Hin.
  apply in_map_iff in Hin. destruct Hin as (d & He & Hd).
  pose proof (find_none _ _ H d Hd) as Hno. cbv beta in Hno.
  rewrite He, String.eqb_refl in Hno. discriminate.
Qed.

Section Accounts.

Variable hmac_sha256 : string -> Claims -> string.
Variable bcrypt_hashpw : string -> string -> string.
Variable bcrypt_checkpw : string -> string -> bool.

Lemma register_run_new (user_data : UserCreate) (w : World) :
  stored_user_by_email (UserCreate_email user_data) w = None ->
  register bcrypt_hashpw user_data w
  = (Ok (UserResponse_of (registered_user user_data w)),
     mkWorld (db_users w
              ++ [mkUserDoc (registered_user user_data w)
                    (bcrypt_hashpw (UserCreate_password user_data)
                                   (urandom w (urandom_reads w)))])
             (db_tickets w) (clock w) (S (clock_reads w))
             (urandom w) (S (S (urandom_reads w)))).
Proof.
  intros H. unfold stored_user_by_email in H.
  unfold register, bind, users_find_one_email. now rewrite H.
Qed.

Lemma register_run_duplicate
    (user_data : UserCreate) (w : World) (d : UserDoc) :
  stored_user_by_email (UserCreate_email user_data) w = Some d ->
  register bcrypt_hashpw user_data w
  = (Raise (mkHTTPException 400 "Email already registered"), w).
Proof.
  intros H. unfold stored_user_by_email in H.
  unfold register, bind, users_find_one_email. now rewrite H.
Qed.

(** X13: [register] keeps the emails of the stored users pairwise distinct, and
    it only ever appends: the documents stored before are still there, in
    the same order, and the tickets are untouched. *)
Theorem register_keeps_emails_unique
    (user_data : UserCreate) (w : World)
    (Hunique : NoDup (user_emails w)) :
  let w' := snd (register bcrypt_hashpw user_data w) in
  NoDup (user_emails w') /\
  (exists added, db_users w' = db_users w ++ added) /\
  db_tickets w' = db_tickets w.
Proof.
  cbv zeta.
  destruct (stored_user_by_email (UserCreate_email user_data) w)
    as [d|] eqn:E.
  - rewrite (register_run_duplicate _ _ d E). cbn [snd].
    split; [exact Hunique|]. split; [|reflexivity].
    exists []. now rewrite app_nil_r.
  - rewrite (register_run_new _ _ E). cbn [snd].
    split; [|split; [eexists; reflexivity | reflexivity]].
    unfold user_emails in *. cbn [db_users]. rewrite map_app.
    apply NoDup_app; [exact Hunique | repeat constructor; simpl; tauto |].
    intros x Hx [<-|[]].
    apply (stored_user_by_email_None _ _ E). exact Hx.
Qed.

(** X14: Registering an email twice: once a registration has succeeded, any
    further registration with the same email, whatever the password, the
    name and the role, fails with 400 and changes nothing. *)
Theorem register_same_email_again
    (first second : UserCreate) (w w1 : World) (r : UserResponse)
    (Hfirst : register bcrypt_hashpw first w = (Ok r, w1))
    (Hemail : UserCreate_email second = UserCreate_email first) :
  register bcrypt_hashpw second w1
  = (Raise (mkHTTPException 400 "Email already registered"), w1).
Proof.
  destruct (stored_user_by_email (UserCreate_email first) w) as [d|] eqn:E.
  - rewrite (register_run_duplicate _ _ d E) in Hfirst. discriminate.
  - rewrite (register_run_new _ _ E) in Hfirst.
    injection Hfirst as _ <-.
    apply (register_run_duplicate
             second _
             (mkUserDoc (registered_user first w)
                (bcrypt_hashpw (UserCreate_password first)
                               (urandom w (urandom_reads w))))).
    unfold stored_user_by_email in *. cbn [db_users]. rewrite Hemail.
    rewrite find_app_None by exact E.
    cbn [find doc_user registered_user User_email].
    now rewrite String.eqb_refl.
Qed.

(** X15: Register, then log in: when the email is new and bcrypt accepts the
    password against the hash it has just made of it, the login with the
    registered email and password succeeds, answers the public fields that
    [register] answered and a bearer token for the new user's id, and
    stores nothing. *)
Theorem register_then_login
    (user_data : UserCreate) (w : World)
    (Hnew : stored_user_by_email (UserCreate_email user_data) w = None)
    (Hbcrypt : bcrypt_checkpw
                 (UserCreate_password user_data)
                 (bcrypt_hashpw (UserCreate_password user_data)
                                (urandom w (urandom_reads w))) = true) :
  exists r w1 token w2,
    register bcrypt_hashpw user_data w = (Ok r, w1) /\
    login hmac_sha256 bcrypt_checkpw
          (mkUserLogin (UserCreate_email user_data)
                       (UserCreate_password user_data)) w1
    = (Ok (mkLoginResponse token "bearer" r), w2) /\
    token = jwt_encode hmac_sha256
              (mkClaims (Some (UserResponse_id r))
                        (Some (now_of w1 + 24 * 3600)))
              JWT_SECRET JWT_ALGORITHM /\
    db_users w2 = db_users w1 /\ db_tickets w2 = db_tickets w1.
Proof.
  do 4 eexists. split; [now apply register_run_new|].
  unfold stored_user_by_email in Hnew.
  unfold login, bind, users_find_one_email, verify_password.
  cbn [db_users UserLogin_email UserLogin_password].
  rewrite find_app_None by exact Hnew.
  cbn [find doc_user registered_user User_email].
  rewrite String.eqb_refl. cbn [doc_password]. rewrite Hbcrypt.
  cbn [negb]. split; [reflexivity|]. repeat split; reflexivity.
Qed.

Lemma login_run
    (user_data : UserLogin) (w : World) :
  login hmac_sha256 bcrypt_checkpw user_data w
  = match stored_user_by_email (UserLogin_email user_data) w with
    | Some d =>
        if bcrypt_checkpw (UserLogin_password user_data) (doc_password d)
        then
          (Ok (mkLoginResponse
                 (jwt_encode hmac_sha256
                    (mkClaims (Some (User_id (doc_user d)))
                              (Some (now_of w + 24 * 3600)))
                    JWT_SECRET JWT_ALGORITHM)
                 "bearer" (UserResponse_of (doc_user d))),
           mkWorld (db_users w) (db_tickets w) (clock w)
                   (S (clock_reads w)) (urandom w) (urandom_reads w))
        else (Raise (mkHTTPException 401 "Invalid email or password"), w)
    | None => (Raise (mkHTTPException 401 "Invalid email or password"), w)
    end.
Proof.
  unfold login, bind, users_find_one_email, stored_user_by_email,
    verify_password.
  destruct (find _ (db_users w)) as [d|]; [|reflexivity].
  destruct (bcrypt_checkpw _ _); reflexivity.
Qed.

(** X16: A login never writes to a collection, and it succeeds only for a stored
    user whose stored hash bcrypt accepts for the given password: the
    response then carries that user's public fields and a token for that
    user's id that expires 24 hours after the clock reading of the login. *)
Theorem login_sound
    (user_data : UserLogin) (w : World) :
  let r := login hmac_sha256 bcrypt_checkpw user_data w in
  db_users (snd r) = db_users w /\
  db_tickets (snd r) = db_tickets w /\
  (forall response,
      fst r = Ok response ->
      exists d,
        stored_user_by_email (UserLogin_email user_data) w = Some d /\
        bcrypt_checkpw (UserLogin_password user_data) (doc_password d)
        = true /\
        LoginResponse_user response = UserResponse_of (doc_user d) /\
        LoginResponse_token_type response = "bearer" /\
        LoginResponse_access_token response
        = jwt_encode hmac_sha256
            (mkClaims (Some (User_id (doc_user d)))
                      (Some (now_of w + 24 * 3600)))
            JWT_SECRET JWT_ALGORITHM).
Proof.
  cbv zeta. rewrite login_run.
  destruct (stored_user_by_email (UserLogin_email user_data) w) as [d|].
  - destruct (bcrypt_checkpw _ _) eqn:E; cbn [fst snd db_users db_tickets].
    + do 2 (split; [reflexivity|]). intros response H.
      apply Ok_inj in H. subst response. exists d. now repeat split.
    + do 2 (split; [reflexivity|]). discriminate.
  - cbn [fst snd]. do 2 (split; [reflexivity|]). discriminate.
Qed.

End Accounts.

(** ** The authentication dependency *)

Section Sessions.

Variable hmac_sha256 : string -> Claims -> string.
Variable bcrypt_checkpw : string -> string -> bool.

Lemma get_current_user_resolved
    (credentials : Token) (w : World) (d : UserDoc) :
  resolves_to hmac_sha256 credentials w d ->
  fst (get_current_user hmac_sha256 credentials w) = Ok (doc_user d).
Proof.
  intros (payload & user_id & -> & Hexp & Hsub & Hd).
  unfold stored_user_by_id in Hd.
  unfold get_current_user, jwt_decode, bind, utcnow, ret, users_find_one_id.
  cbn [existsb]. rewrite !String.eqb_refl. cbn [orb negb].
  destruct (claim_exp payload) as [exp|].
  - specialize (Hexp exp eq_refl). unfold now_of in Hexp.
    destruct (Z.leb_spec exp (clock w (clock_reads w))) as [Hle|_]; [lia|].
    rewrite Hsub. cbn [db_users]. now rewrite Hd.
  - rewrite Hsub. now rewrite Hd.
Qed.

(** X17: [get_current_user] returns a user exactly for a credential that is a
    token for HS256 whose signature is the MAC of its payload under the
    server's secret, whose expiry, if it has one, is after the clock
    reading, and whose subject is the id of a stored user; the user is the
    first one stored under that id.  A token without subject, a token for
    an id that is not stored, another algorithm, another signature and a
    string that is not a token are all refused. *)
Theorem get_current_user_accepts
    (credentials : Token) (w : World) (u : User) :
  fst (get_current_user hmac_sha256 credentials w) = Ok u
  <-> exists d, resolves_to hmac_sha256 credentials w d /\ u = doc_user d.
Proof.
  split.
  - unfold get_current_user, jwt_decode, bind, utcnow, ret, raise,
      users_find_one_id.
    destruct credentials as [alg payload signature|raw]; [|discriminate].
    cbn [existsb]. rewrite orb_false_r.
    destruct (String.eqb_spec alg JWT_ALGORITHM) as [->|_];
      cbn [negb]; [|discriminate].
    destruct (String.eqb_spec signature (hmac_sha256 JWT_SECRET payload))
      as [->|_]; cbn [negb]; [|discriminate].
    destruct (claim_exp payload) as [exp|] eqn:Hexp.
    + destruct (Z.leb_spec exp (clock w (clock_reads w))) as [_|Hlt];
        [discriminate|].
      destruct (claim_sub payload) as [user_id|] eqn:Hsub; [|discriminate].
      cbn [db_users].
      destruct (find _ (db_users w)) as [d|] eqn:Hd; [|discriminate].
      cbn [fst]. intros H. apply Ok_inj in H. subst u.
      exists d. split; [|reflexivity].
      exists payload, user_id. repeat split; try assumption.
      intros exp' E. rewrite Hexp in E. injection E as <-. exact Hlt.
    + destruct (claim_sub payload) as [user_id|] eqn:Hsub; [|discriminate].
      destruct (find _ (db_users w)) as [d|] eqn:Hd; [|discriminate].
      cbn [fst]. intros H. apply Ok_inj in H. subst u.
      exists d. split; [|reflexivity].
      exists payload, user_id. repeat split; try assumption.
      intros exp' E. rewrite Hexp in E. discriminate.
  - intros (d & Hres & ->). now apply get_current_user_resolved.
Qed.

Lemma get_current_user_db (credentials : Token) (w : World) :
  db_users (snd (get_current_user hmac_sha256 credentials w)) = db_users w /\
  db_tickets (snd (get_current_user hmac_sha256 credentials w))
  = db_tickets w /\
  (forall e,
      fst (get_current_user hmac_sha256 credentials w) = Raise e ->
      status_code e = 401).
Proof.
  unfold get_current_user, jwt_decode, bind, utcnow, ret, raise,
    users_find_one_id.
  destruct credentials as [alg payload signature|raw].
  2:{ cbn. repeat split. intros e H. now injection H as <-. }
  destruct (negb (existsb _ _)).
  { cbn. repeat split. intros e H. now injection H as <-. }
  destruct (negb (String.eqb _ _)).
  { cbn. repeat split. intros e H. now injection H as <-. }
  destruct (claim_exp payload) as [exp|].
  - destruct (exp <=? clock w (clock_reads w)).
    { cbn. repeat split. intros e H. now injection H as <-. }
    destruct (claim_sub payload) as [user_id|].
    2:{ cbn. repeat split. intros e H. now injection H as <-. }
    cbn [db_users]. destruct (find _ (db_users w)); cbn; repeat split.
    + discriminate.
    + intros e H. now injection H as <-.
  - destruct (claim_sub payload) as [user_id|].
    2:{ cbn. repeat split. intros e H. now injection H as <-. }
    destruct (find _ (db_users w)); cbn; repeat split.
    + discriminate.
    + intros e H. now injection H as <-.
Qed.

(** X18: Authentication fails closed: [get_current_user] writes to no
    collection; every failure is a 401; and when it fails, a route that
    depends on it answers that failure without running its handler, so the
    collections are as they were. *)
Theorem authentication_fails_closed
    (credentials : Token) (w : World) :
  let r := get_current_user hmac_sha256 credentials w in
  db_users (snd r) = db_users w /\
  db_tickets (snd r) = db_tickets w /\
  (forall e, fst r = Raise e -> status_code e = 401) /\
  (forall (A : Type) (handler : User -> M A) e,
      fst r = Raise e ->
      let r' := authenticated hmac_sha256 credentials handler w in
      fst r' = Raise e /\
      db_users (snd r') = db_users w /\
      db_tickets (snd r') = db_tickets w).
Proof.
  cbv zeta.
  destruct (get_current_user_db credentials w) as (Hu & Ht & He).
  split; [exact Hu|]. split; [exact Ht|]. split; [exact He|].
  intros A handler e H. unfold authenticated, bind.
  destruct (get_current_user hmac_sha256 credentials w) as [[u|e'] w'].
  - discriminate.
  - cbn [fst snd] in *. injection H as ->. now repeat split.
Qed.

(** X19: Log in, then authenticate: when the stored users have pairwise distinct
    ids, the token of a successful login, presented while the same users
    are stored and before 24 hours have passed on the clock, resolves to the
    user who logged in. *)
Theorem login_token_resolves
    (user_data : UserLogin) (w w1 w2 : World) (response : LoginResponse)
    (Hids : NoDup (user_ids w))
    (Hlogin : login hmac_sha256 bcrypt_checkpw user_data w
              = (Ok response, w1))
    (Husers : db_users w2 = db_users w)
    (Hclock : now_of w2 < now_of w + 24 * 3600) :
  exists u,
    fst (get_current_user hmac_sha256
           (LoginResponse_access_token response) w2) = Ok u /\
    UserResponse_of u = LoginResponse_user response /\
    User_email u = UserLogin_email user_data.
Proof.
  rewrite login_run in Hlogin.
  destruct (stored_user_by_email (UserLogin_email user_data) w)
    as [d|] eqn:Hd; [|discriminate].
  destruct (bcrypt_checkpw _ _); [|discriminate].
  apply (f_equal fst), Ok_inj in Hlogin. cbn [fst] in Hlogin.
  subst response. cbn [LoginResponse_access_token LoginResponse_user].
  unfold stored_user_by_email in Hd. apply find_some in Hd.
  destruct Hd as [Hin Hemail]. apply String.eqb_eq in Hemail.
  exists (doc_user d). split; [|split; [reflexivity | exact Hemail]].
  apply get_current_user_resolved.
  exists (mkClaims (Some (User_id (doc_user d)))
                   (Some (now_of w + 24 * 3600))),
         (User_id (doc_user d)).
  split; [reflexivity|]. split; [|split; [reflexivity|]].
  - cbn [claim_exp]. intros exp E. injection E as <-. exact Hclock.
  - unfold stored_user_by_id. rewrite Husers.
    apply (find_unique_key (fun y => User_id (doc_user y)) _ d Hids Hin).
Qed.

End Sessions.

(** ** Concrete instances *)

Lemma register_keeps_emails_unique_witness :
  NoDup (user_emails
           (snd (register sample_hashpw
                   (mkUserCreate "dave@example.com" "d" "Dave" CUSTOMER)
                   sample_world))).
Proof.
  apply (register_keeps_emails_unique
           sample_hashpw
           (mkUserCreate "dave@example.com" "d" "Dave" CUSTOMER)
           sample_world).
  repeat constructor; simpl; intuition discriminate.
Defined.

Lemma register_same_email_again_witness :
  let w1 :=
    snd (register sample_hashpw
           (mkUserCreate "dave@example.com" "d" "Dave" CUSTOMER)
           sample_world) in
  register sample_hashpw
           (mkUserCreate "dave@example.com" "other" "David" AGENT) w1
  = (Raise (mkHTTPException 400 "Email already registered"), w1).
Proof.
  cbv zeta.
  apply (register_same_email_again
           sample_hashpw
           (mkUserCreate "dave@example.com" "d" "Dave" CUSTOMER)
           (mkUserCreate "dave@example.com" "other" "David" AGENT)
           sample_world _
           (mkUserResponse "xx" "dave@example.com" "Dave" CUSTOMER 1000 true));
    reflexivity.
Defined.

Lemma register_then_login_witness :
  exists r w1 token w2,
    register sample_hashpw
             (mkUserCreate "dave@example.com" "d" "Dave" CUSTOMER)
             sample_world = (Ok r, w1) /\
    login sample_hmac sample_checkpw
          (mkUserLogin "dave@example.com" "d") w1
    = (Ok (mkLoginResponse token "bearer" r), w2).
Proof.
  destruct (register_then_login
              sample_hmac sample_hashpw sample_checkpw
              (mkUserCreate "dave@example.com" "d" "Dave" CUSTOMER)
              sample_world eq_refl eq_refl)
    as (r & w1 & token & w2 & Hr & Hl & _).
  now exists r, w1, token, w2.
Defined.

Lemma login_token_resolves_witness :
  exists u,
    fst (get_current_user sample_hmac
           (Compact "HS256" (mkClaims (Some "u-alice") (Some 87400))
                    "digibuster_secret_key_2025u-alice")
           (world_at 87399)) = Ok u /\
    UserResponse_of u = UserResponse_of alice /\
    User_email u = "alice@example.com".
Proof.
  apply (login_token_resolves
           sample_hmac sample_checkpw
           (mkUserLogin "alice@example.com" "a")
           sample_world
           (mkWorld (db_users sample_world) (db_tickets sample_world)
                    (clock sample_world) 1 sample_draw 0)
           (world_at 87399)
           (mkLoginResponse
              (Compact "HS256" (mkClaims (Some "u-alice") (Some 87400))
                       "digibuster_secret_key_2025u-alice")
              "bearer" (UserResponse_of alice))).
  - repeat constructor; simpl; intuition discriminate.
  - reflexivity.
  - reflexivity.
  - reflexivity.
Defined.

(** The dashboards of [sample_world]. *)
Example dashboard_sample :
  fst (get_dashboard_stats alice sample_world)
  = Ok (mkDashboardStats 1 1 None 0 "customer") /\
  fst (get_dashboard_stats bob sample_world)
  = Ok (mkDashboardStats 1 0 None 0 "customer") /\
  fst (get_dashboard_stats carol sample_world)
  = Ok (mkDashboardStats 2 1 (Some 1%nat) 0 "agent").
Proof. repeat split; reflexivity. Qed.
